(** * ctrainlib.models: prediction wrappers and cross-validated ensembles

    A shallow embedding of [ctrainlib/models.py]: the two prediction wrappers
    ([Regressor], [Classifier]) and the two ensembles ([CVClassifier],
    [NestedClusterCVClassifier]), together with the parts of numpy and pandas
    that the file calls.

    Conventions.
    - Floating-point numbers are idealised as rationals ([Q]); rounding, NaN
      and infinities are outside the model.
    - A Python exception is a [Raise] result.  Code that mutates an object
      ([self.models.append], [DataFrame.drop(inplace=True)]) runs in a state
      and error monad whose state survives a raised exception, as the
      mutated object does in Python.
    - Base models (scikit-learn-like estimators) are opaque: construction,
      [fit] and [predict_proba] of a base model are total functions supplied
      through the [BaseModel] interface. *)

From Stdlib Require Import QArith.
From stdpp Require Import base list strings gmap sorting pretty.

Local Open Scope Z_scope.
Local Open Scope nat_scope.

(** ** Exceptions and results *)

(** The exceptions the modelled code can raise.  pandas reports a column
    label that is absent from the axis as a [KeyError]; that case is kept
    apart from the dictionary [KeyError] under the name
    [ColumnNotFoundError].  [ReferenceError] stands for a reference that
    names no object of the store; Python code cannot produce one. *)
Inductive exn : Type :=
| ColumnNotFoundError
| KeyError
| IndexError
| ValueError
| TypeError
| AxisError
| ReferenceError.

Inductive result (A : Type) : Type :=
| Ok (a : A)
| Raise (e : exn).
Arguments Ok {A} a.
Arguments Raise {A} e.

#[global] Instance result_ret : MRet result := λ A, Ok.
#[global] Instance result_bind : MBind result :=
  λ A B f r, match r with Ok a => f a | Raise e => Raise e end.
#[global] Instance result_fmap : FMap result :=
  λ A B f r, match r with Ok a => Ok (f a) | Raise e => Raise e end.

(** [o] or raise [e] when [o] is [None]. *)
Definition or_raise {A} (e : exn) (o : option A) : result A :=
  match o with Some a => Ok a | None => Raise e end.

(** ** State and error monad

    [M S A]: a computation over a mutable object (or store) of type [S] that
    returns an [A] or raises.  The state reached when the exception is raised
    is kept. *)
Definition M (S A : Type) : Type := S → S * result A.

#[global] Instance M_ret {S} : MRet (M S) := λ A a s, (s, Ok a).
#[global] Instance M_bind {S} : MBind (M S) :=
  λ A B f c s, match c s with
               | (s', Ok a) => f a s'
               | (s', Raise e) => (s', Raise e)
               end.

Definition get {S} : M S S := λ s, (s, Ok s).
Definition gets {S A} (f : S → A) : M S A := λ s, (s, Ok (f s)).
Definition modify {S} (f : S → S) : M S unit := λ s, (f s, Ok ()).
Definition lift {S A} (r : result A) : M S A := λ s, (s, r).

(** [for x in l: body x] *)
Fixpoint for_ {S A} (l : list A) (body : A → M S unit) : M S unit :=
  match l with
  | [] => mret ()
  | x :: l' => body x ≫= λ _, for_ l' body
  end.

(** ** numpy *)

(** A 2-d float array, row-major. *)
Abbreviation matrix := (list (list Q)).

(** What [np.sum]/[np.divide] can return here: a 0-d scalar or a 2-d array. *)
Inductive ndarray : Type :=
| Scalar (q : Q)
| Array2 (m : matrix).

(** [a == v] on an integer array. *)
Definition np_eq (a : list Z) (v : Z) : list bool := (λ c, Z.eqb c v) <$> a.

Definition np_logical_not (mask : list bool) : list bool := negb <$> mask.

(** [np.where(mask)[0]]: the positions that hold [True], ascending. *)
Fixpoint np_where_from (i : nat) (mask : list bool) : list nat :=
  match mask with
  | [] => []
  | b :: mask' =>
      if b then i :: np_where_from (S i) mask' else np_where_from (S i) mask'
  end.
Definition np_where (mask : list bool) : list nat := np_where_from 0 mask.

(** [a[ix]] with an integer index array: [IndexError] out of range. *)
Definition np_take {A} (a : list A) (ix : list nat) : result (list A) :=
  mapM (λ i, or_raise IndexError (a !! i)) ix.

(** [np.unique(a)]: the distinct values, sorted ascending. *)
Definition np_unique (a : list Z) : list Z := merge_sort Z.le (remove_dups a).

(** The entries of [a] at the positions where [mask] holds. *)
Fixpoint compress {A} (mask : list bool) (a : list A) : list A :=
  match mask, a with
  | b :: mask', x :: a' => if b then x :: compress mask' a' else compress mask' a'
  | _, _ => []
  end.

(** Element-wise sum of two 2-d arrays of one shape. *)
Definition mat_add (a b : matrix) : matrix := zip_with (zip_with Qplus) a b.

Definition same_shapeb (a b : matrix) : bool :=
  bool_decide (length <$> a = length <$> b).

(** [np.sum(predictions, axis=0)] on a Python list of 2-d arrays.  The empty
    list becomes an empty 1-d array whose sum is the scalar [0]; arrays of
    one shape are stacked and added along the new first axis; arrays of
    different shapes cannot be stacked. *)
Definition np_sum_axis0 (predictions : list matrix) : result ndarray :=
  match predictions with
  | [] => Ok (Scalar 0)
  | p :: rest =>
      if forallb (same_shapeb p) rest
      then Ok (Array2 (fold_left mat_add rest p))
      else Raise ValueError
  end.

(** [np.divide(a, n)] with a Python integer [n]. *)
Definition np_divide (a : ndarray) (n : Z) : ndarray :=
  match a with
  | Scalar q => Scalar (q / inject_Z n)
  | Array2 m => Array2 ((λ row : list Q, (λ q, q / inject_Z n)%Q <$> row) <$> m)
  end.

Definition Qltb (x y : Q) : bool := negb (Qle_bool y x).

(** [values.argmax()]: scan left to right, replacing the running best only by
    a strictly larger value, so the first maximum wins.  An empty sequence
    has no argmax. *)
Fixpoint argmax_from (best_i : nat) (best : Q) (i : nat) (values : list Q) : nat :=
  match values with
  | [] => best_i
  | v :: values' =>
      if Qltb best v then argmax_from i v (S i) values'
      else argmax_from best_i best (S i) values'
  end.
Definition argmax (values : list Q) : result nat :=
  match values with
  | [] => Raise ValueError
  | v :: values' => Ok (argmax_from 0 v 1 values')
  end.

(** [np.argmax(a, axis=1)] *)
Definition np_argmax_axis1 (a : ndarray) : result (list nat) :=
  match a with
  | Scalar _ => Raise AxisError
  | Array2 m => mapM argmax m
  end.

(** ** Python values and base models *)

(** The values a classifier parameter mapping holds. *)
Inductive pyval : Type :=
| PyNone
| PyBool (b : bool)
| PyInt (n : Z)
| PyFloat (q : Q)
| PyStr (s : string).

#[global] Instance Q_eq_dec : EqDecision Q.
Proof. solve_decision. Defined.
#[global] Instance pyval_eq_dec : EqDecision pyval.
Proof. solve_decision. Defined.

(** The scikit-learn-like estimator the ensembles are built from.  [Model] is
    the estimator object; [model_fit m X y] is the object after
    [m.fit(X, y)]. *)
Class BaseModel (Model Label : Type) : Type := {
  model_fit : Model → matrix → list Label → Model;
  model_predict_proba : Model → matrix → matrix;
}.

(** [classes_[x]] on an attribute that is [None] until somebody sets it. *)
Definition classes_getitem {Label} (classes_ : option (list Label)) (x : nat)
  : result Label :=
  match classes_ with
  | None => Raise TypeError
  | Some cs => or_raise IndexError (cs !! x)
  end.

(** ** NestedClusterCVClassifier *)

Module NestedClusterCVClassifier.
Section with_base_model.
Context {Model Label : Type} `{!BaseModel Model Label}.

Record t : Type := mk {
  clf : gmap string pyval → Model;
  params : gmap string pyval;
  models : list Model;
  n_folds : Z;
  shuffle : bool;
  classes_ : option (list Label);
  outer_clusters : list Z;
}.

Definition __init__ (clf : gmap string pyval → Model) (params : gmap string pyval)
    (outer_clusters : list Z) (shuffle : bool) : t :=
  {| clf := clf;
     params := params;
     models := [];
     outer_clusters := outer_clusters;
     n_folds := Z.of_nat (length (np_unique outer_clusters));
     shuffle := shuffle;
     classes_ := None |}.

(** [self.models.append(m)] *)
Definition models_append (m : Model) (self : t) : t :=
  {| clf := clf self;
     params := params self;
     models := models self ++ [m];
     outer_clusters := outer_clusters self;
     n_folds := n_folds self;
     shuffle := shuffle self;
     classes_ := classes_ self |}.

Definition _mean_proba (self : t) (x_data : matrix) : result ndarray :=
  let predictions := (λ model, model_predict_proba model x_data) <$> models self in
  np_sum_axis0 predictions ≫= λ total,
  mret (np_divide total (n_folds self)).

Definition fit (x_data : matrix) (y_data : list Label) : M t unit :=
  gets n_folds ≫= λ n,
  for_ (seqZ 0 n) (λ fold,
    gets outer_clusters ≫= λ clusters,
    let inner_cluster_mask := np_logical_not (np_eq clusters fold) in
    let inner_cluster_ix := np_where inner_cluster_mask in
    lift (np_take x_data inner_cluster_ix) ≫= λ inner_x,
    lift (np_take y_data inner_cluster_ix) ≫= λ inner_y,
    lift (np_take clusters inner_cluster_ix) ≫= λ inner_clusters,
    for_ (np_unique inner_clusters) (λ inner_fold,
      let train_ix :=
        np_where (np_logical_not (np_eq inner_clusters inner_fold)) in
      get ≫= λ self,
      let clf_tmp := clf self (params self) in
      lift (np_take inner_x train_ix) ≫= λ train_x,
      lift (np_take inner_y train_ix) ≫= λ train_y,
      modify (models_append (model_fit clf_tmp train_x train_y)))).

Definition predict (self : t) (x_data : matrix) : result (list Label) :=
  _mean_proba self x_data ≫= λ probas,
  np_argmax_axis1 probas ≫= λ best,
  mapM (classes_getitem (classes_ self)) best.

Definition predict_proba (self : t) (x_data : matrix) : result ndarray :=
  _mean_proba self x_data.

End with_base_model.
Arguments t : clear implicits.
End NestedClusterCVClassifier.

(** ** CVClassifier *)

(** [StratifiedKFold(n_splits, shuffle, random_state).split(X, y)] of
    scikit-learn, which is not part of this file: a parameter.  It yields
    [(train_index, test_index)] pairs, or raises before the first pair. *)
Class StratifiedKFold (Label : Type) : Type := {
  skf_split : Z → bool → pyval → matrix → list Label →
              result (list (list nat * list nat));
}.

Module CVClassifier.
Section with_base_model.
Context {Model Label : Type} `{!BaseModel Model Label} `{!StratifiedKFold Label}.

Record t : Type := mk {
  clf : gmap string pyval → Model;
  params : gmap string pyval;
  models : list Model;
  n_folds : Z;
  shuffle : bool;
  classes_ : option (list Label);
}.

Definition __init__ (clf : gmap string pyval → Model) (params : gmap string pyval)
    (n_folds : Z) (shuffle : bool) : t :=
  {| clf := clf;
     params := params;
     models := [];
     n_folds := n_folds;
     shuffle := shuffle;
     classes_ := None |}.

(** [self.models.append(m)] *)
Definition models_append (m : Model) (self : t) : t :=
  {| clf := clf self;
     params := params self;
     models := models self ++ [m];
     n_folds := n_folds self;
     shuffle := shuffle self;
     classes_ := classes_ self |}.

Definition _mean_proba (self : t) (x_data : matrix) : result ndarray :=
  let predictions := (λ model, model_predict_proba model x_data) <$> models self in
  np_sum_axis0 predictions ≫= λ total,
  mret (np_divide total (n_folds self)).

Definition fit (x_data : matrix) (y_data : list Label) : M t unit :=
  get ≫= λ self,
  lift (or_raise KeyError (params self !! "random_state")) ≫= λ random_state,
  lift (skf_split (n_folds self) (shuffle self) random_state x_data y_data) ≫= λ kf,
  for_ kf (λ '(train_index, test_index),
    get ≫= λ self,
    let clf_tmp := clf self (params self) in
    lift (np_take x_data train_index) ≫= λ train_x,
    lift (np_take y_data train_index) ≫= λ train_y,
    modify (models_append (model_fit clf_tmp train_x train_y))).

Definition predict (self : t) (x_data : matrix) : result (list Label) :=
  _mean_proba self x_data ≫= λ probas,
  np_argmax_axis1 probas ≫= λ best,
  mapM (classes_getitem (classes_ self)) best.

Definition predict_proba (self : t) (x_data : matrix) : result ndarray :=
  _mean_proba self x_data.

End with_base_model.
Arguments t : clear implicits.
End CVClassifier.

(** ** pandas *)

(** A DataFrame: row labels, column labels and the cells, row-major. *)
Record DataFrame (A : Type) : Type := mkDataFrame {
  index : list pyval;
  columns : list string;
  values : list (list A);
}.
Arguments mkDataFrame {A} index columns values.
Arguments index {A} d.
Arguments columns {A} d.
Arguments values {A} d.

(** The positions of the columns labelled [name]. *)
Definition col_positions (cols : list string) (name : string) : list nat :=
  np_where ((λ c, bool_decide (c = name)) <$> cols).

(** [df.drop(columns=labels)]: every label must be on the column axis; all
    columns carrying one of the labels go. *)
Definition df_drop {A} (df : DataFrame A) (labels : list string)
  : result (DataFrame A) :=
  if forallb (λ l, bool_decide (l ∈ columns df)) labels then
    let keep := (λ c, bool_decide (c ∉ labels)) <$> columns df in
    Ok {| index := index df;
          columns := compress keep (columns df);
          values := compress keep <$> values df |}
  else Raise ColumnNotFoundError.

(** [np.array(df[labels])]: the cells of the selected columns, in the order
    of [labels].  [df[None]] and a label off the axis raise. *)
Definition df_getitem {A} (df : DataFrame A) (labels : option (list string))
  : result (list (list A)) :=
  match labels with
  | None => Raise ColumnNotFoundError
  | Some labels =>
      if forallb (λ l, bool_decide (l ∈ columns df)) labels then
        mapM (λ row, np_take row (labels ≫= col_positions (columns df))) (values df)
      else Raise ColumnNotFoundError
  end.

(** Writes [vals] into [row] at the positions [ps], pairwise. *)
Definition set_positions {A} (row : list A) (ps : list nat) (vals : list A)
  : list A :=
  foldl (λ acc pv, <[pv.1 := pv.2]> acc) row (zip ps vals).

(** [df.loc[:, labels] = arr]: [arr] must have one row per row of [df] and
    one column per selected column. *)
Definition df_loc_setitem {A} (df : DataFrame A) (labels : option (list string))
    (arr : list (list A)) : result (DataFrame A) :=
  match labels with
  | None => Raise ColumnNotFoundError
  | Some labels =>
      let ps := labels ≫= col_positions (columns df) in
      if bool_decide (length arr = length (values df)
                      ∧ Forall (λ r, length r = length ps) arr) then
        Ok {| index := index df;
              columns := columns df;
              values := zip_with (λ row vals, set_positions row ps vals)
                                 (values df) arr |}
      else Raise ValueError
  end.

(** [pd.DataFrame(data={name: col, ...}, index=index)]: every column must
    have one entry per index label. *)
Definition df_from_dict {A} (data : list (string * list A)) (index : list pyval)
  : result (DataFrame A) :=
  if forallb (λ nc, bool_decide (length nc.2 = length index)) data then
    Ok {| index := index;
          columns := fst <$> data;
          values := (λ i, omap (λ nc, nc.2 !! i) data) <$> seq 0 (length index) |}
  else Raise ValueError.

(** [pd.DataFrame(y, columns=columns, index=index)] on a 2-d array. *)
Definition df_from_array {A} (y : list (list A)) (columns : list string)
    (index : list pyval) : result (DataFrame A) :=
  if bool_decide (length y = length index
                  ∧ Forall (λ r, length r = length columns) y) then
    Ok {| index := index; columns := columns; values := y |}
  else Raise ValueError.

(** [pd.concat([a, b], axis=1)] of two frames built on one index: the columns
    of [b] follow those of [a].  Frames on different indexes are aligned by
    an outer join in pandas; that case does not arise here and is not
    modelled. *)
Definition pd_concat_axis1 {A} (a b : DataFrame A) : result (DataFrame A) :=
  if bool_decide (index a = index b) then
    Ok {| index := index a;
          columns := columns a ++ columns b;
          values := zip_with app (values a) (values b) |}
  else Raise ValueError.

(** *** The store of feature tables

    The caller hands [predict] a reference to its table; [copy] allocates a
    new table and the in-place operations overwrite the table a reference
    names. *)
Abbreviation loc := positive.
Abbreviation store := (gmap positive (DataFrame Q)).

Definition deref (x : loc) : M store (DataFrame Q) :=
  λ h, (h, or_raise ReferenceError (h !! x)).

(** A new object holding [df]. *)
Definition alloc (df : DataFrame Q) : M store loc :=
  λ h, let x' := fresh (dom h) in (<[x' := df]> h, Ok x').

(** [x.copy()] *)
Definition df_copy (x : loc) : M store loc := deref x ≫= alloc.

(** An operation of pandas that rewrites the table [x] names. *)
Definition df_inplace (x : loc) (f : DataFrame Q → result (DataFrame Q))
  : M store unit :=
  deref x ≫= λ df,
  lift (f df) ≫= λ df',
  modify (<[x := df']>).

(** [bool(l)] of an attribute that holds [None] or a list. *)
Definition truthy {A} (l : option (list A)) : bool :=
  match l with
  | None | Some [] => false
  | Some (_ :: _) => true
  end.

(** A fitted [sklearn.preprocessing.StandardScaler], which is not part of
    this file: its [transform] is a parameter. *)
Record StandardScaler : Type := { transform : matrix → result matrix }.

(** The statements both wrappers run on their copy before they call the
    model (lines 67-71 and 133-137):
[[
    if self.redundant_cols:
        x_data.drop(columns=self.redundant_cols, inplace=True)
    if self.scaler:
        x_data.loc[:, self.descriptors] =
            self.scaler.transform(np.array(x_data[self.descriptors]))
]] *)
Definition preprocess (redundant_cols : option (list string))
    (scaler : option StandardScaler) (descriptors : option (list string))
    (x_data : loc) : M store unit :=
  (if truthy redundant_cols
   then df_inplace x_data (λ df, df_drop df (default [] redundant_cols))
   else mret ()) ≫= λ _,
  match scaler with
  | Some sc =>
      deref x_data ≫= λ df,
      lift (df_getitem df descriptors) ≫= λ selected,
      lift (transform sc selected) ≫= λ scaled,
      df_inplace x_data (λ df, df_loc_setitem df descriptors scaled)
  | None => mret ()
  end.

(** ** Regressor *)

(** The regressor a [Regressor] wraps: anything with a [predict]. *)
Class RegressorModel (R : Type) : Type := {
  model_predict : R → matrix → result (list Q);
}.

Module Regressor.
Section with_model.
Context {R FingerprintInfo : Type} `{!RegressorModel R}.

Record t : Type := mk {
  model : R;
  name : string;
  descriptors : option (list string);
  fingerprints : option (list FingerprintInfo);
  scaler : option StandardScaler;
  redundant_cols : option (list string);
}.

Definition predict (self : t) (x_data : loc) : M store (DataFrame Q) :=
  df_copy x_data ≫= λ x_data,
  deref x_data ≫= λ df,
  let index := index df in
  preprocess (redundant_cols self) (scaler self) (descriptors self) x_data ≫= λ _,
  deref x_data ≫= λ df,
  lift (model_predict (model self) (values df)) ≫= λ y,
  lift (df_from_dict [(name self +:+ "_prediction", y)] index).

End with_model.
Arguments t : clear implicits.
End Regressor.

(** ** Classifier *)

(** The classifier a [Classifier] wraps: anything with [predict_proba] and
    [classes_], an ensemble of this file included. *)
Class ClassifierModel (C Label : Type) : Type := {
  wrapped_predict_proba : C → matrix → result ndarray;
  wrapped_classes_ : C → option (list Label);
}.

#[global] Instance CVClassifier_model {Model Label} `{!BaseModel Model Label}
  : ClassifierModel (CVClassifier.t Model Label) Label :=
  {| wrapped_predict_proba := CVClassifier.predict_proba;
     wrapped_classes_ := CVClassifier.classes_ |}.

#[global] Instance NestedClusterCVClassifier_model {Model Label}
    `{!BaseModel Model Label}
  : ClassifierModel (NestedClusterCVClassifier.t Model Label) Label :=
  {| wrapped_predict_proba := NestedClusterCVClassifier.predict_proba;
     wrapped_classes_ := NestedClusterCVClassifier.classes_ |}.

(** A cell of a prediction table: a class label or a number. *)
Inductive cell (Label : Type) : Type :=
| CLabel (l : Label)
| CFloat (q : Q).
Arguments CLabel {Label} l.
Arguments CFloat {Label} q.

(** [for values in y]: a 0-d array cannot be iterated. *)
Definition np_iter (y : ndarray) : result matrix :=
  match y with
  | Scalar _ => Raise TypeError
  | Array2 m => Ok m
  end.

(** [len(classes_)] *)
Definition classes_len {Label} (classes_ : option (list Label)) : result nat :=
  match classes_ with
  | None => Raise TypeError
  | Some cs => Ok (length cs)
  end.

Module Classifier.
Section with_model.
Context {C Label FingerprintInfo : Type} `{!ClassifierModel C Label}.

Record t : Type := mk {
  model : C;
  name : string;
  descriptors : option (list string);
  fingerprints : option (list FingerprintInfo);
  scaler : option StandardScaler;
  redundant_cols : option (list string);
}.

(** The body of the loop over the rows of [y]: the pair appended to
    [predictions] and [probabilities]. *)
Definition pick (self : t) (values : list Q) : result (Label * Q) :=
  argmax values ≫= λ best_i,
  classes_getitem (wrapped_classes_ (model self)) best_i ≫= λ c,
  or_raise IndexError (values !! best_i) ≫= λ p,
  mret (c, p).

Definition predict (self : t) (x_data : loc) : M store (DataFrame (cell Label)) :=
  df_copy x_data ≫= λ x_data,
  deref x_data ≫= λ df,
  let index := index df in
  preprocess (redundant_cols self) (scaler self) (descriptors self) x_data ≫= λ _,
  deref x_data ≫= λ df,
  lift (wrapped_predict_proba (model self) (values df)) ≫= λ y,
  lift (np_iter y) ≫= λ rows,
  lift (mapM (pick self) rows) ≫= λ picked,
  let predictions := fst <$> picked in
  let probabilities := snd <$> picked in
  let prediction_name := name self +:+ "_prediction" in
  let probability_name := name self +:+ "_probability" in
  lift (classes_len (wrapped_classes_ (model self))) ≫= λ n_classes,
  let probability_columns :=
    (λ i : nat, name self +:+ "_probability_" +:+ pretty i) <$> seq 0 n_classes in
  lift (df_from_dict [(prediction_name, CLabel <$> predictions);
                      (probability_name, CFloat <$> probabilities)] index) ≫= λ left,
  lift (df_from_array ((λ row : list Q, CFloat <$> row) <$> rows)
                      probability_columns index) ≫= λ right,
  lift (pd_concat_axis1 left right).

End with_model.
Arguments t : clear implicits.
End Classifier.

(** ** What the operations compute, in closed form *)

(** A 2-d array of [r] rows and [c] columns. *)
Definition has_shape (r c : nat) (m : matrix) : Prop :=
  length m = r ∧ Forall (λ row : list Q, length row = c) m.

(** The entry at row [i], column [j] ([0] off the array). *)
Definition entry (m : matrix) (i j : nat) : Q :=
  default 0%Q (m !! i ≫= λ row : list Q, row !! j).

Definition Qsum (l : list Q) : Q := foldr Qplus 0%Q l.

(** [b] is the lowest position that holds the maximum of [values]. *)
Definition first_max (values : list Q) (b : nat) : Prop :=
  ∃ v, values !! b = Some v
       ∧ (∀ j w, values !! j = Some w → (w <= v)%Q)
       ∧ (∀ j w, j < b → values !! j = Some w → (w < v)%Q).

(** The number of distinct identifiers in a cluster assignment vector. *)
Definition n_distinct (clusters : list Z) : nat :=
  size (list_to_set clusters : gset Z).

Section nested_closed_form.
Context {Model Label : Type} `{!BaseModel Model Label}.
Import NestedClusterCVClassifier.

(** The models one pass of the outer loop of [fit] appends for the loop
    value [fold]: the samples whose cluster is not [fold] form the inner
    subset, and each distinct cluster [inner_fold] of the inner subset gives
    one model trained on the inner samples whose cluster is not
    [inner_fold]. *)
Definition inner_models (self : t Model Label) (x_data : matrix)
    (y_data : list Label) (fold : Z) : list Model :=
  let inner_mask := np_logical_not (np_eq (outer_clusters self) fold) in
  let inner_x := compress inner_mask x_data in
  let inner_y := compress inner_mask y_data in
  let inner_clusters := compress inner_mask (outer_clusters self) in
  (λ inner_fold,
     let train_mask := np_logical_not (np_eq inner_clusters inner_fold) in
     model_fit (clf self (params self))
               (compress train_mask inner_x) (compress train_mask inner_y))
  <$> np_unique inner_clusters.

(** The models [fit] appends: the outer loop runs over [range(n_folds)]. *)
Definition fit_models (self : t Model Label) (x_data : matrix)
    (y_data : list Label) : list Model :=
  seqZ 0 (n_folds self) ≫= inner_models self x_data y_data.

(** The models the specification describes: the outer loop runs over the
    cluster identifiers present in the assignment vector. *)
Definition spec_fit_models (self : t Model Label) (x_data : matrix)
    (y_data : list Label) : list Model :=
  np_unique (outer_clusters self) ≫= inner_models self x_data y_data.

(** The model count the specification gives: the sum over the outer clusters
    of the number of distinct clusters among the remaining samples. *)
Definition spec_model_count (clusters : list Z) : nat :=
  sum_list ((λ c, n_distinct (filter (λ k, k ≠ c) clusters))
            <$> np_unique clusters).

(** [self.models.extend(ms)], the net effect of a run of appends. *)
Definition models_extend (ms : list Model) (self : t Model Label)
  : t Model Label :=
  {| clf := clf self;
     params := params self;
     models := models self ++ ms;
     outer_clusters := outer_clusters self;
     n_folds := n_folds self;
     shuffle := shuffle self;
     classes_ := classes_ self |}.

(** The number of models one call of [fit] appends. *)
Definition nested_model_count (self : t Model Label) : nat :=
  sum_list ((λ fold, n_distinct (filter (λ k, k ≠ fold) (outer_clusters self)))
            <$> seqZ 0 (n_folds self)).

(** [self.classes_ = cs], the assignment the training pipeline makes after
    [fit]. *)
Definition set_classes_ (cs : list Label) (self : t Model Label)
  : t Model Label :=
  {| clf := clf self;
     params := params self;
     models := models self;
     outer_clusters := outer_clusters self;
     n_folds := n_folds self;
     shuffle := shuffle self;
     classes_ := Some cs |}.

(** The ensembles a program can hold: built by [__init__], then changed only
    by calls of [fit] (whether they return or raise) and by assignments to
    [classes_]. *)
Inductive reachable : t Model Label → Prop :=
| reach_init clf params clusters shuffle :
    reachable (__init__ clf params clusters shuffle)
| reach_fit self x_data y_data self' r :
    reachable self → fit x_data y_data self = (self', r) → reachable self'
| reach_classes_ self cs :
    reachable self → reachable (set_classes_ cs self).

End nested_closed_form.

Section cv_closed_form.
Context {Model Label : Type} `{!BaseModel Model Label} `{!StratifiedKFold Label}.
Import CVClassifier.

(** The positions [0 .. n-1] that are not in [test_index]. *)
Definition complement (n : nat) (test_index : list nat) : list nat :=
  filter (λ i, i ∉ test_index) (seq 0 n).

(** The entries of [a] whose position is not in [test_index]. *)
Definition outside {A} (test_index : list nat) (a : list A) : list A :=
  compress ((λ i, bool_decide (i ∉ test_index)) <$> seq 0 (length a)) a.

(** What the stratified splitter promises for [n_splits] folds over [n]
    samples: that many folds, each training on the samples outside it. *)
Definition accepted_split (n_splits : Z) (n : nat)
    (kf : list (list nat * list nat)) : Prop :=
  Z.of_nat (length kf) = n_splits
  ∧ Forall (λ fold, fold.1 = complement n fold.2) kf.

(** The model the pass for [fold] trains: a new estimator, fitted on the
    samples outside the fold. *)
Definition fold_model (self : t Model Label) (x_data : matrix)
    (y_data : list Label) (fold : list nat * list nat) : Model :=
  model_fit (clf self (params self))
            (outside fold.2 x_data) (outside fold.2 y_data).

Definition cv_models_extend (ms : list Model) (self : t Model Label)
  : t Model Label :=
  {| clf := clf self;
     params := params self;
     models := models self ++ ms;
     n_folds := n_folds self;
     shuffle := shuffle self;
     classes_ := classes_ self |}.

(** [self.classes_ = cs], the assignment the training pipeline makes after
    [fit]. *)
Definition cv_set_classes_ (cs : list Label) (self : t Model Label)
  : t Model Label :=
  {| clf := clf self;
     params := params self;
     models := models self;
     n_folds := n_folds self;
     shuffle := shuffle self;
     classes_ := Some cs |}.

End cv_closed_form.

(** What [preprocess] makes of a table holding [df]. *)
Definition preprocessed (redundant_cols : option (list string))
    (scaler : option StandardScaler) (descriptors : option (list string))
    (df : DataFrame Q) : result (DataFrame Q) :=
  (if truthy redundant_cols then df_drop df (default [] redundant_cols)
   else Ok df) ≫= λ dropped,
  match scaler with
  | Some sc =>
      df_getitem dropped descriptors ≫= λ selected,
      transform sc selected ≫= λ scaled,
      df_loc_setitem dropped descriptors scaled
  | None => Ok dropped
  end.

(** The column labels of a classifier's prediction table. *)
Definition prediction_columns (name : string) (n_classes : nat) : list string :=
  [name +:+ "_prediction"; name +:+ "_probability"]
  ++ ((λ i : nat, name +:+ "_probability_" +:+ pretty i) <$> seq 0 n_classes).

(** The prediction table of a classifier: row by row the chosen class, its
    probability and the probabilities of all classes. *)
Definition prediction_table {Label} (name : string) (index : list pyval)
    (picked : list (Label * Q)) (y : matrix) (n_classes : nat)
  : DataFrame (cell Label) :=
  {| index := index;
     columns := prediction_columns name n_classes;
     values := zip_with (λ (pp : Label * Q) (row : list Q),
                           CLabel pp.1 :: CFloat pp.2 :: (CFloat <$> row))
                        picked y |}.

(** A computation that leaves every table but the one at [x] as it was,
    whether it returns or raises. *)
Definition frame {A} (x : loc) (c : M store A) : Prop :=
  ∀ h h' r, c h = (h', r) → ∀ l, l ≠ x → h' !! l = h !! l.

(** A computation whose returned table, if any, carries the index [ix]. *)
Definition yields_index {A} (ix : list pyval) (c : M store (DataFrame A)) : Prop :=
  ∀ h h' out, c h = (h', Ok out) → index out = ix.


(** ** A base model to run the definitions on

    [FrequencyModel]: an estimator that remembers its training set and
    predicts, for every row, the relative frequencies of the labels [0] and
    [1] among its training labels. *)
Module FrequencyModel.

Record t : Type := mk { train_x : matrix; train_y : list Z }.

Definition freq (y : list Z) (l : Z) : Q :=
  (inject_Z (Z.of_nat (length (filter (λ k, k = l) y)))
   / inject_Z (Z.of_nat (length y)))%Q.

#[global] Instance base_model : BaseModel t Z :=
  {| model_fit := λ _ x y, {| train_x := x; train_y := y |};
     model_predict_proba := λ m x,
       (λ _, [freq (train_y m) 0; freq (train_y m) 1]) <$> x |}.

(** The constructor, called with the parameter mapping: an unfitted
    estimator. *)
Definition new (params : gmap string pyval) : t :=
  {| train_x := []; train_y := [] |}.

End FrequencyModel.

(** ** A splitter to run the definitions on

    [DealSplit]: deals the samples of every class round-robin over the folds,
    so that each fold holds its share of every class.  It ignores the
    shuffle flag and the random state. *)
Module DealSplit.

(** How many earlier samples carry the label of sample [i]. *)
Definition rank (y : list Z) (i : nat) : nat :=
  match y !! i with
  | Some l => length (filter (λ k, k = l) (take i y))
  | None => 0
  end.

Definition test_fold (n_splits : nat) (y : list Z) (j : nat) : list nat :=
  filter (λ i, rank y i `mod` n_splits = j) (seq 0 (length y)).

Definition split (n_splits : Z) (shuffle : bool) (random_state : pyval)
    (x : matrix) (y : list Z) : result (list (list nat * list nat)) :=
  if bool_decide (n_splits < 2)%Z then Raise ValueError
  else if bool_decide (length x ≠ length y) then Raise ValueError
  else if bool_decide (Z.of_nat (length y) < n_splits)%Z then Raise ValueError
  else Ok ((λ j, let test_index := test_fold (Z.to_nat n_splits) y j in
                 (complement (length y) test_index, test_index))
           <$> seq 0 (Z.to_nat n_splits)).

#[global] Instance splitter : StratifiedKFold Z := {| skf_split := split |}.

End DealSplit.

(** ** A regressor and a scaler to run the definitions on *)
Module SumRegressor.

(** Predicts the bias plus the sum of the features. *)
Record t : Type := mk { bias : Q }.

#[global] Instance regressor_model : RegressorModel t :=
  {| model_predict := λ m x, Ok ((λ row : list Q, bias m + Qsum row)%Q <$> x) |}.

End SumRegressor.

(** A scaler with the fitted means [mean_] and deviations [scale_], one per
    column. *)
Definition standard_scaler (mean_ scale_ : list Q) : StandardScaler :=
  {| transform := λ x,
       if forallb (λ row : list Q, bool_decide (length row = length mean_)) x
       then Ok ((λ row : list Q,
                   zip_with (λ q ms, (q - ms.1) / ms.2)%Q row (zip mean_ scale_))
                <$> x)
       else Raise ValueError |}.

(** ** Sample data *)
Module Samples.

Definition x_data : matrix := [[1]; [2]; [3]; [4]; [5]; [6]]%Q.
Definition y_data : list Z := [0; 1; 0; 1; 0; 1]%Z.

(** A 3-fold ensemble and the folds [DealSplit] deals for [y_data]. *)
Definition cv : CVClassifier.t FrequencyModel.t Z :=
  CVClassifier.__init__ FrequencyModel.new {["random_state" := PyInt 7]} 3 true.
Definition kf : list (list nat * list nat) :=
  [([2; 3; 4; 5], [0; 1]); ([0; 1; 4; 5], [2; 3]); ([0; 1; 2; 3], [4; 5])].

(** Three clusters of two samples each, numbered from [0]. *)
Definition clusters : list Z := [0; 0; 1; 1; 2; 2]%Z.
Definition nested : NestedClusterCVClassifier.t FrequencyModel.t Z :=
  NestedClusterCVClassifier.__init__ FrequencyModel.new ∅ clusters true.

(** Two rows to predict. *)
Definition x_new : matrix := [[9]; [8]]%Q.

(** The ensembles after one [fit] on the sample data; the nested one with
    its [classes_] assigned. *)
Definition cv_fitted : CVClassifier.t FrequencyModel.t Z :=
  (CVClassifier.fit x_data y_data cv).1.
Definition nested_fitted : NestedClusterCVClassifier.t FrequencyModel.t Z :=
  set_classes_ [0; 1]%Z (NestedClusterCVClassifier.fit x_data y_data nested).1.

(** A feature table of two molecules, held by the caller at [caller_table]. *)
Definition features : DataFrame Q :=
  {| index := [PyStr "mol_a"; PyStr "mol_b"];
     columns := ["logp"; "fp_017"; "weight"];
     values := [[2; 1; 300]; [4; 0; 100]]%Q |}.
Definition caller_table : loc := 1%positive.
Definition heap : store := {[ caller_table := features ]}.

(** The wrappers around the fitted ensemble and around a regressor; both
    drop [fp_017] and scale the two descriptors. *)
Definition classifier : Classifier.t (CVClassifier.t FrequencyModel.t Z) unit :=
  {| Classifier.model := cv_set_classes_ [0; 1]%Z cv_fitted;
     Classifier.name := "tox";
     Classifier.descriptors := Some ["logp"; "weight"];
     Classifier.fingerprints := None;
     Classifier.scaler := Some (standard_scaler [3; 200] [1; 100])%Q;
     Classifier.redundant_cols := Some ["fp_017"] |}.
Definition regressor : Regressor.t SumRegressor.t unit :=
  {| Regressor.model := {| SumRegressor.bias := 1 |};
     Regressor.name := "sol";
     Regressor.descriptors := Some ["logp"; "weight"];
     Regressor.fingerprints := None;
     Regressor.scaler := Some (standard_scaler [3; 200] [1; 100])%Q;
     Regressor.redundant_cols := Some ["fp_017"] |}.

(** [features] after the drop of [fp_017], and after the scaling of the two
    descriptors that follows. *)
Definition features_dropped : DataFrame Q :=
  {| index := [PyStr "mol_a"; PyStr "mol_b"];
     columns := ["logp"; "weight"];
     values := [[2; 300]; [4; 100]]%Q |}.
Definition features_logp_scaled : DataFrame Q :=
  {| index := [PyStr "mol_a"; PyStr "mol_b"];
     columns := ["logp"; "weight"];
     values := [[-1 # 1; 300]; [1 # 1; 100]]%Q |}.
Definition features_scaled : DataFrame Q :=
  {| index := [PyStr "mol_a"; PyStr "mol_b"];
     columns := ["logp"; "weight"];
     values := [[-1 # 1; 100 # 100]; [1 # 1; -100 # 100]]%Q |}.

(** An ensemble whose parameters lack [random_state], the nested ensemble
    after [fit] with [classes_] never assigned, and classifiers around an
    ensemble that was never fitted and around one that lists three classes
    for its two probability columns. *)
Definition cv_no_seed : CVClassifier.t FrequencyModel.t Z :=
  CVClassifier.__init__ FrequencyModel.new ∅ 3 true.
Definition nested_no_classes : NestedClusterCVClassifier.t FrequencyModel.t Z :=
  (NestedClusterCVClassifier.fit x_data y_data nested).1.
Definition classifier_unfitted : Classifier.t (CVClassifier.t FrequencyModel.t Z) unit :=
  {| Classifier.model := cv_set_classes_ [0; 1]%Z cv;
     Classifier.name := "tox";
     Classifier.descriptors := Some ["logp"; "weight"];
     Classifier.fingerprints := None;
     Classifier.scaler := Some (standard_scaler [3; 200] [1; 100])%Q;
     Classifier.redundant_cols := Some ["fp_017"] |}.

(** Wrappers whose redundant-column list names a column the table lacks. *)
Definition classifier_missing : Classifier.t (CVClassifier.t FrequencyModel.t Z) unit :=
  {| Classifier.model := cv_set_classes_ [0; 1]%Z cv_fitted;
     Classifier.name := "tox";
     Classifier.descriptors := None;
     Classifier.fingerprints := None;
     Classifier.scaler := None;
     Classifier.redundant_cols := Some ["fp_017"; "fp_999"] |}.
Definition regressor_missing : Regressor.t SumRegressor.t unit :=
  {| Regressor.model := {| SumRegressor.bias := 1 |};
     Regressor.name := "sol";
     Regressor.descriptors := None;
     Regressor.fingerprints := None;
     Regressor.scaler := None;
     Regressor.redundant_cols := Some ["fp_017"; "fp_999"] |}.

End Samples.

(** * Properties *)

(** ** Index arrays and boolean masks *)

Lemma np_take_cons {A} (a : list A) i ix :
  np_take a (i :: ix)
  = or_raise IndexError (a !! i) ≫= λ x, np_take a ix ≫= λ k, mret (x :: k).
Proof. reflexivity. Qed.

Lemma np_take_where_from {A} (mask : list bool) :
  ∀ (pre a : list A), length mask ≤ length a →
    np_take (pre ++ a) (np_where_from (length pre) mask) = Ok (compress mask a).
Proof.
  induction mask as [|b mask IH]; intros pre a Hlen; [done|].
  destruct a as [|x a]; simpl in Hlen; [lia|].
  assert (Hstep : np_take (pre ++ x :: a) (np_where_from (S (length pre)) mask)
                  = Ok (compress mask a)).
  { specialize (IH (pre ++ [x]) a ltac:(lia)).
    replace ((pre ++ [x]) ++ a) with (pre ++ x :: a) in IH
      by (by rewrite <- app_assoc).
    replace (length (pre ++ [x])) with (S (length pre)) in IH
      by (rewrite length_app; simpl; lia).
    done. }
  destruct b; [|exact Hstep].
  change (np_take (pre ++ x :: a)
            (length pre :: np_where_from (S (length pre)) mask)
          = Ok (x :: compress mask a)).
  rewrite np_take_cons, list_lookup_middle by done.
  simpl. by rewrite Hstep.
Qed.

(** Indexing with [np.where(mask)[0]] selects the entries under the mask. *)
Lemma np_take_where {A} (mask : list bool) (a : list A) :
  length mask ≤ length a → np_take a (np_where mask) = Ok (compress mask a).
Proof. intros. by apply (np_take_where_from mask []). Qed.

(** Masking an integer array by [!= c] keeps the entries different from [c]. *)
Lemma compress_ne (clusters : list Z) (c : Z) :
  compress (np_logical_not (np_eq clusters c)) clusters
  = filter (λ k, k ≠ c) clusters.
Proof.
  induction clusters as [|k clusters IH]; [done|].
  change (compress (negb (k =? c)%Z :: np_logical_not (np_eq clusters c))
            (k :: clusters) = filter (λ k, k ≠ c) (k :: clusters)).
  destruct (Z.eqb_spec k c) as [->|Hne]; simpl compress.
  - by rewrite filter_cons_False by (intros ?; done).
  - by rewrite filter_cons_True, IH by done.
Qed.

(** ** [np.unique] *)

Lemma np_unique_perm (a : list Z) : np_unique a ≡ₚ remove_dups a.
Proof. apply merge_sort_Permutation. Qed.

Lemma elem_of_np_unique (a : list Z) (x : Z) : x ∈ np_unique a ↔ x ∈ a.
Proof. by rewrite np_unique_perm, elem_of_remove_dups. Qed.

Lemma NoDup_np_unique (a : list Z) : NoDup (np_unique a).
Proof. rewrite np_unique_perm. apply NoDup_remove_dups. Qed.

Lemma Sorted_np_unique (a : list Z) : Sorted Z.le (np_unique a).
Proof. apply (Sorted_merge_sort Z.le). Qed.

(** [len(np.unique(a))] is the number of distinct values of [a]. *)
Lemma length_np_unique (a : list Z) : length (np_unique a) = n_distinct a.
Proof.
  unfold n_distinct.
  rewrite <- (size_list_to_set (C:=gset Z) (np_unique a)) by apply NoDup_np_unique.
  f_equal. apply set_eq. intros x.
  by rewrite !elem_of_list_to_set, elem_of_np_unique.
Qed.

Lemma length_compress_eq {A B} (mask : list bool) :
  ∀ (a : list A) (b : list B),
    length mask ≤ length a → length mask ≤ length b →
    length (compress mask a) = length (compress mask b).
Proof.
  induction mask as [|m mask IH]; intros a b Ha Hb; [by destruct a, b|].
  destruct a as [|x a], b as [|y b]; simpl in Ha, Hb; try lia.
  destruct m; simpl; [f_equal|]; apply IH; lia.
Qed.

Lemma length_np_logical_not_eq (a : list Z) (v : Z) :
  length (np_logical_not (np_eq a v)) = length a.
Proof. unfold np_logical_not, np_eq. by rewrite !length_fmap. Qed.

Lemma bind_singleton_fmap {A B} (g : A → B) (l : list A) :
  l ≫= (λ x, [g x]) = g <$> l.
Proof. induction l as [|x l IH]; [done|]. csimpl. by rewrite IH. Qed.

(** ** Loops that append

    A loop whose every pass extends an accumulating attribute extends it by
    the passes' contributions, in order. *)
Lemma for_extend {S A E} (extend : list E → S → S) (l : list A)
    (body : A → M S unit) (f : A → list E) (s : S) :
  (∀ x ms, x ∈ l → body x (extend ms s) = (extend (ms ++ f x) s, Ok ())) →
  ∀ ms, for_ l body (extend ms s) = (extend (ms ++ (l ≫= f)) s, Ok ()).
Proof.
  induction l as [|x l IH]; intros Hbody ms.
  - simpl. by rewrite app_nil_r.
  - simpl. unfold mbind at 1, M_bind.
    rewrite Hbody by apply list_elem_of_here.
    rewrite IH by (intros; apply Hbody; by apply list_elem_of_further).
    by rewrite app_assoc.
Qed.

(** ** NestedClusterCVClassifier.fit *)

Section nested_fit.
Context {Model Label : Type} `{!BaseModel Model Label}.
Import NestedClusterCVClassifier.

Lemma models_extend_nil (self : t Model Label) : models_extend [] self = self.
Proof. destruct self. unfold models_extend. simpl. by rewrite app_nil_r. Qed.

Lemma models_extend_extend (ms ms' : list Model) (self : t Model Label) :
  models_extend ms' (models_extend ms self) = models_extend (ms ++ ms') self.
Proof. unfold models_extend. simpl. by rewrite app_assoc. Qed.

Lemma models_append_extend (m : Model) (ms : list Model) (self : t Model Label) :
  models_append m (models_extend ms self) = models_extend (ms ++ [m]) self.
Proof. unfold models_append, models_extend. simpl. by rewrite app_assoc. Qed.

(** One pass of the outer loop of [fit]. *)
Lemma fit_outer_pass (self : t Model Label) (x_data : matrix)
    (y_data : list Label) (fold : Z) (ms : list Model) :
  length (outer_clusters self) ≤ length x_data →
  length (outer_clusters self) ≤ length y_data →
  (gets outer_clusters ≫= λ clusters,
    let inner_cluster_mask := np_logical_not (np_eq clusters fold) in
    let inner_cluster_ix := np_where inner_cluster_mask in
    lift (np_take x_data inner_cluster_ix) ≫= λ inner_x,
    lift (np_take y_data inner_cluster_ix) ≫= λ inner_y,
    lift (np_take clusters inner_cluster_ix) ≫= λ inner_clusters,
    for_ (np_unique inner_clusters) (λ inner_fold,
      let train_ix :=
        np_where (np_logical_not (np_eq inner_clusters inner_fold)) in
      get ≫= λ self,
      let clf_tmp := clf self (params self) in
      lift (np_take inner_x train_ix) ≫= λ train_x,
      lift (np_take inner_y train_ix) ≫= λ train_y,
      modify (models_append (model_fit clf_tmp train_x train_y))))
    (models_extend ms self)
  = (models_extend (ms ++ inner_models self x_data y_data fold) self, Ok ()).
Proof.
  intros Hx Hy.
  pose proof (length_np_logical_not_eq (outer_clusters self) fold) as Hmask.
  unfold mbind at 1, M_bind, gets. cbn [outer_clusters models_extend].
  unfold mbind at 1, M_bind, lift.
  rewrite np_take_where by lia.
  unfold mbind at 1, M_bind.
  rewrite np_take_where by lia.
  unfold mbind at 1, M_bind.
  rewrite np_take_where by lia.
  set (inner_mask := np_logical_not (np_eq (outer_clusters self) fold)) in *.
  set (inner_clusters := compress inner_mask (outer_clusters self)).
  unfold inner_models. fold inner_mask. fold inner_clusters.
  rewrite <- bind_singleton_fmap.
  apply (for_extend models_extend _ _
           (λ inner_fold,
              [model_fit (clf self (params self))
                 (compress (np_logical_not (np_eq inner_clusters inner_fold))
                    (compress inner_mask x_data))
                 (compress (np_logical_not (np_eq inner_clusters inner_fold))
                    (compress inner_mask y_data))])).
  intros inner_fold ms' _.
  pose proof (length_np_logical_not_eq inner_clusters inner_fold) as Htrain.
  assert (length inner_clusters = length (compress inner_mask x_data)) as Hix
    by (apply length_compress_eq; lia).
  assert (length inner_clusters = length (compress inner_mask y_data)) as Hiy
    by (apply length_compress_eq; lia).
  unfold mbind at 1, M_bind, get.
  unfold mbind at 1, M_bind, lift.
  rewrite np_take_where by lia.
  unfold mbind at 1, M_bind.
  rewrite np_take_where by lia.
  unfold modify. by rewrite models_append_extend.
Qed.

(** [fit] on aligned data succeeds and appends exactly [fit_models], leaving
    every other attribute as it was. *)
Lemma nested_fit_appends (self : t Model Label) (x_data : matrix)
    (y_data : list Label) :
  length (outer_clusters self) ≤ length x_data →
  length (outer_clusters self) ≤ length y_data →
  fit x_data y_data self
  = (models_extend (fit_models self x_data y_data) self, Ok ()).
Proof.
  intros Hx Hy. unfold fit, fit_models.
  unfold mbind at 1, M_bind, gets.
  rewrite <- (models_extend_nil self) at 2.
  erewrite (for_extend models_extend); [done|].
  intros fold ms _. by apply fit_outer_pass.
Qed.

End nested_fit.

(** ** Summing and averaging probability arrays *)

Lemma has_shape_lengths (m : matrix) r c :
  has_shape r c m → length <$> m = replicate r c.
Proof.
  intros [<- Hrows]. induction Hrows as [|row m Hrow _ IH]; [done|].
  by rewrite fmap_cons, Hrow, IH.
Qed.

Lemma has_shape_lookup (m : matrix) r c i j :
  has_shape r c m → i < r → j < c →
  ∃ row q, m !! i = Some row ∧ row !! j = Some q ∧ entry m i j = q.
Proof.
  intros [Hlen Hrows] Hi Hj.
  destruct (lookup_lt_is_Some_2 m i) as [row Hrow]; [lia|].
  assert (length row = c) as Hc
    by (eapply (proj1 (Forall_lookup _ _) Hrows); eauto).
  destruct (lookup_lt_is_Some_2 row j) as [q Hq]; [lia|].
  exists row, q. unfold entry. rewrite Hrow. simpl. by rewrite Hq.
Qed.

Lemma mat_add_shape (a b : matrix) r c :
  has_shape r c a → has_shape r c b → has_shape r c (mat_add a b).
Proof.
  intros [Ha Hra] [Hb Hrb]. unfold mat_add. split.
  - rewrite length_zip_with. lia.
  - apply Forall_lookup. intros i row Hrow.
    apply lookup_zip_with_Some in Hrow as (ra & rb & -> & Hia & Hib).
    rewrite length_zip_with.
    rewrite (proj1 (Forall_lookup _ _) Hra _ _ Hia).
    rewrite (proj1 (Forall_lookup _ _) Hrb _ _ Hib). lia.
Qed.

Lemma entry_mat_add (a b : matrix) r c i j :
  has_shape r c a → has_shape r c b → i < r → j < c →
  entry (mat_add a b) i j = (entry a i j + entry b i j)%Q.
Proof.
  intros Ha Hb Hi Hj.
  destruct (has_shape_lookup a r c i j) as (ra & qa & Hra & Hqa & ->); [done..|].
  destruct (has_shape_lookup b r c i j) as (rb & qb & Hrb & Hqb & ->); [done..|].
  unfold entry, mat_add. rewrite lookup_zip_with, Hra, Hrb. simpl.
  by rewrite lookup_zip_with, Hqa, Hqb.
Qed.

Lemma fold_left_mat_add (rest : list matrix) r c :
  ∀ p, has_shape r c p → Forall (has_shape r c) rest →
    has_shape r c (fold_left mat_add rest p)
    ∧ ∀ i j, i < r → j < c →
        (entry (fold_left mat_add rest p) i j
         == entry p i j + Qsum ((λ m, entry m i j) <$> rest))%Q.
Proof.
  induction rest as [|m rest IH]; intros p Hp Hrest.
  - split; [done|]. intros. cbn. by rewrite Qplus_0_r.
  - apply Forall_cons in Hrest as [Hm Hrest]. cbn [fold_left].
    destruct (IH (mat_add p m)) as [Hshape Hentry];
      [by apply mat_add_shape|done|].
    split; [done|]. intros i j Hi Hj.
    rewrite Hentry, (entry_mat_add p m r c) by done.
    rewrite fmap_cons. cbn [Qsum foldr]. by rewrite Qplus_assoc.
Qed.

(** [np.sum(predictions, axis=0)] over at least one array, all of one shape:
    an array of that shape holding, entry by entry, the sum over the list. *)
Lemma np_sum_axis0_entries (predictions : list matrix) r c :
  predictions ≠ [] → Forall (has_shape r c) predictions →
  ∃ total, np_sum_axis0 predictions = Ok (Array2 total)
           ∧ has_shape r c total
           ∧ ∀ i j, i < r → j < c →
               (entry total i j == Qsum ((λ m, entry m i j) <$> predictions))%Q.
Proof.
  intros Hne Hall. destruct predictions as [|p rest]; [done|].
  apply Forall_cons in Hall as [Hp Hrest].
  destruct (fold_left_mat_add rest r c p Hp Hrest) as [Hshape Hentry].
  exists (fold_left mat_add rest p). split; [|done].
  unfold np_sum_axis0.
  replace (forallb (same_shapeb p) rest) with true; [done|].
  symmetry. apply forallb_forall. intros m Hm.
  apply bool_decide_eq_true.
  rewrite (has_shape_lengths p r c) by done.
  rewrite (has_shape_lengths m r c); [done|].
  apply (proj1 (Forall_forall _ _) Hrest). by apply list_elem_of_In.
Qed.

Lemma np_divide_entries (total : matrix) (n : Z) r c :
  has_shape r c total →
  ∃ mean, np_divide (Array2 total) n = Array2 mean
          ∧ has_shape r c mean
          ∧ ∀ i j, i < r → j < c →
              entry mean i j = (entry total i j / inject_Z n)%Q.
Proof.
  intros Hshape. eexists. split; [done|]. split.
  - destruct Hshape as [Hlen Hrows]. split; [by rewrite length_fmap|].
    apply Forall_fmap. eapply Forall_impl; [done|].
    intros row Hrow. simpl. by rewrite length_fmap.
  - intros i j Hi Hj.
    destruct (has_shape_lookup total r c i j) as (row & q & Hrow & Hq & ->);
      [done..|].
    unfold entry. rewrite list_lookup_fmap, Hrow. simpl.
    by rewrite list_lookup_fmap, Hq.
Qed.

(** The mean both ensembles compute: the entry-wise sum of the arrays over
    [n]. *)
Lemma mean_entries (predictions : list matrix) (n : Z) r c :
  predictions ≠ [] → Forall (has_shape r c) predictions →
  ∃ mean, (np_sum_axis0 predictions ≫= λ total, mret (np_divide total n))
          = Ok (Array2 mean)
          ∧ has_shape r c mean
          ∧ ∀ i j, i < r → j < c →
              (entry mean i j
               == Qsum ((λ m, entry m i j) <$> predictions) / inject_Z n)%Q.
Proof.
  intros Hne Hall.
  destruct (np_sum_axis0_entries predictions r c Hne Hall)
    as (total & -> & Hshape & Htotal).
  destruct (np_divide_entries total n r c Hshape) as (mean & Hdiv & Hmean & Hentry).
  exists mean. split; [by rewrite <- Hdiv|]. split; [done|].
  intros i j Hi Hj. by rewrite Hentry, Htotal.
Qed.

(** ** [mapM] over results *)

Lemma mapM_result_cons {A B} (f : A → result B) x l :
  mapM f (x :: l) = f x ≫= λ y, mapM f l ≫= λ k, mret (y :: k).
Proof. reflexivity. Qed.


Lemma mapM_result_Forall {A B} (f : A → result B) (P : A → B → Prop)
    (l : list A) :
  Forall (λ x, ∃ y, f x = Ok y ∧ P x y) l →
  ∃ k, mapM f l = Ok k ∧ Forall2 P l k.
Proof.
  induction 1 as [|x l (y & Hy & HP) _ (k & Hk & HPk)].
  - by exists [].
  - exists (y :: k). split; [|by constructor].
    rewrite mapM_result_cons, Hy. simpl. by rewrite Hk.
Qed.

(** ** [argmax] *)

Lemma Qltb_lt (x y : Q) : Qltb x y = true ↔ (x < y)%Q.
Proof.
  unfold Qltb. rewrite negb_true_iff, <- not_true_iff_false, Qle_bool_iff.
  split; [apply Qnot_le_lt|apply Qlt_not_le].
Qed.

Lemma Qltb_ge (x y : Q) : Qltb x y = false ↔ (y <= x)%Q.
Proof. unfold Qltb. by rewrite negb_false_iff, Qle_bool_iff. Qed.

Lemma argmax_from_first_max (values : list Q) :
  ∀ (pre : list Q) (best_i : nat) (best : Q),
    pre !! best_i = Some best →
    (∀ j w, pre !! j = Some w → (w <= best)%Q) →
    (∀ j w, j < best_i → pre !! j = Some w → (w < best)%Q) →
    first_max (pre ++ values) (argmax_from best_i best (length pre) values).
Proof.
  induction values as [|v values IH]; intros pre best_i best Hbest Hmax Hfirst.
  - rewrite app_nil_r. by exists best.
  - pose proof (lookup_lt_Some _ _ _ Hbest) as Hlt.
    replace (pre ++ v :: values) with ((pre ++ [v]) ++ values)
      by (by rewrite <- app_assoc).
    assert (length (pre ++ [v]) = S (length pre)) as Hlen
      by (rewrite length_app; simpl; lia).
    simpl. destruct (Qltb best v) eqn:Hcmp; rewrite <- Hlen.
    + apply Qltb_lt in Hcmp. apply IH.
      * by rewrite lookup_app_r, Nat.sub_diag.
      * intros j w Hj. apply lookup_app_Some in Hj as [Hj|[_ Hj]].
        -- apply Qlt_le_weak. eapply Qle_lt_trans; [by eapply Hmax|done].
        -- apply list_lookup_singleton_Some in Hj as [_ <-]. apply Qle_refl.
      * intros j w Hjlt Hj. rewrite lookup_app_l in Hj by done.
        eapply Qle_lt_trans; [by eapply Hmax|done].
    + apply Qltb_ge in Hcmp. apply IH.
      * by rewrite lookup_app_l.
      * intros j w Hj. apply lookup_app_Some in Hj as [Hj|[_ Hj]].
        -- by eapply Hmax.
        -- by apply list_lookup_singleton_Some in Hj as [_ <-].
      * intros j w Hjlt Hj. rewrite lookup_app_l in Hj by lia.
        by eapply Hfirst.
Qed.

(** [argmax] of a non-empty row is the lowest position of its maximum. *)
Lemma argmax_first_max (values : list Q) :
  values ≠ [] → ∃ b, argmax values = Ok b ∧ first_max values b.
Proof.
  destruct values as [|v values]; [done|]. intros _.
  exists (argmax_from 0 v 1 values). split; [done|].
  apply (argmax_from_first_max values [v] 0 v); [done|..].
  - intros j w Hj. apply list_lookup_singleton_Some in Hj as [_ <-].
    apply Qle_refl.
  - intros j w Hj. lia.
Qed.

Lemma first_max_lt (values : list Q) b : first_max values b → b < length values.
Proof. intros (v & Hv & _). by eapply lookup_lt_Some. Qed.

(** The lowest position of the maximum is unique. *)
Lemma first_max_unique (values : list Q) b b' :
  first_max values b → first_max values b' → b = b'.
Proof.
  intros (v & Hv & Hmax & Hfirst) (v' & Hv' & Hmax' & Hfirst').
  destruct (lt_eq_lt_dec b b') as [[Hlt| ->]|Hlt]; [|done|].
  - pose proof (Hfirst' _ _ Hlt Hv). pose proof (Hmax _ _ Hv').
    exfalso. eapply Qlt_not_le; eauto.
  - pose proof (Hfirst _ _ Hlt Hv'). pose proof (Hmax' _ _ Hv).
    exfalso. eapply Qlt_not_le; eauto.
Qed.

(** ** CVClassifier.fit *)

Lemma np_where_from_filter (P : nat → Prop) `{!∀ i, Decision (P i)} (n : nat) :
  ∀ i, np_where_from i ((λ k, bool_decide (P k)) <$> seq i n)
       = filter P (seq i n).
Proof.
  induction n as [|n IH]; intros i; [done|].
  change (seq i (S n)) with (i :: seq (S i) n). rewrite fmap_cons.
  cbn [np_where_from]. rewrite IH.
  destruct (decide (P i)).
  - by rewrite bool_decide_eq_true_2, filter_cons_True by done.
  - by rewrite bool_decide_eq_false_2, filter_cons_False by done.
Qed.

(** Indexing with the complement of a fold selects the samples outside it. *)
Lemma np_take_complement {A} (a : list A) (test_index : list nat) :
  np_take a (complement (length a) test_index) = Ok (outside test_index a).
Proof.
  unfold complement, outside.
  rewrite <- (np_where_from_filter (λ i, i ∉ test_index)).
  apply np_take_where. by rewrite length_fmap, length_seq.
Qed.

Section cv_fit.
Context {Model Label : Type} `{!BaseModel Model Label} `{!StratifiedKFold Label}.
Import CVClassifier.

Lemma cv_models_extend_nil (self : t Model Label) :
  cv_models_extend [] self = self.
Proof. destruct self. unfold cv_models_extend. simpl. by rewrite app_nil_r. Qed.

Lemma cv_models_append_extend (m : Model) (ms : list Model)
    (self : t Model Label) :
  models_append m (cv_models_extend ms self) = cv_models_extend (ms ++ [m]) self.
Proof. unfold models_append, cv_models_extend. simpl. by rewrite app_assoc. Qed.

(** [fit] on a split the splitter accepted succeeds and appends one model
    per fold, in fold order, leaving every other attribute as it was. *)
Lemma cv_fit_appends (self : t Model Label) (x_data : matrix)
    (y_data : list Label) (random_state : pyval)
    (kf : list (list nat * list nat)) :
  params self !! "random_state" = Some random_state →
  skf_split (n_folds self) (shuffle self) random_state x_data y_data = Ok kf →
  Forall (λ fold, fold.1 = complement (length x_data) fold.2) kf →
  length y_data = length x_data →
  fit x_data y_data self
  = (cv_models_extend (fold_model self x_data y_data <$> kf) self, Ok ()).
Proof.
  intros Hrs Hsplit Hkf Hlen. unfold fit.
  unfold mbind at 1, M_bind, get.
  unfold mbind at 1, M_bind, lift. rewrite Hrs. simpl or_raise. cbv iota beta.
  unfold mbind at 1, M_bind. rewrite Hsplit.
  rewrite <- (cv_models_extend_nil self) at 1.
  rewrite <- bind_singleton_fmap.
  refine (for_extend cv_models_extend _ _
            (λ fold, [fold_model self x_data y_data fold]) self _ []).
  intros [train_index test_index] ms Hin.
  apply (proj1 (Forall_forall _ _) Hkf) in Hin. simpl in Hin. subst train_index.
  unfold mbind at 1, M_bind, get.
  unfold mbind at 1, M_bind, lift.
  rewrite np_take_complement.
  unfold mbind at 1, M_bind.
  rewrite <- Hlen, np_take_complement.
  unfold modify. by rewrite cv_models_append_extend.
Qed.

End cv_fit.

(** ** The models the ensembles train *)

Lemma length_bind_sum {A B} (f : A → list B) (l : list A) :
  length (l ≫= f) = sum_list ((λ x, length (f x)) <$> l).
Proof.
  induction l as [|x l IH]; [done|]. csimpl. by rewrite length_app, IH.
Qed.

Section nested_models.
Context {Model Label : Type} `{!BaseModel Model Label}.
Import NestedClusterCVClassifier.

(** One pass of the outer loop trains one model per distinct cluster of the
    inner subset. *)
Lemma length_inner_models (self : t Model Label) x_data y_data (fold : Z) :
  length (inner_models self x_data y_data fold)
  = n_distinct (filter (λ k, k ≠ fold) (outer_clusters self)).
Proof.
  unfold inner_models. by rewrite length_fmap, length_np_unique, compress_ne.
Qed.

Lemma length_fit_models (self : t Model Label) x_data y_data :
  length (fit_models self x_data y_data) = nested_model_count self.
Proof.
  unfold fit_models, nested_model_count. rewrite length_bind_sum.
  f_equal. apply list_fmap_ext. intros _ fold _. apply length_inner_models.
Qed.

Lemma length_spec_fit_models (self : t Model Label) x_data y_data :
  length (spec_fit_models self x_data y_data)
  = spec_model_count (outer_clusters self).
Proof.
  unfold spec_fit_models, spec_model_count. rewrite length_bind_sum.
  f_equal. apply list_fmap_ext. intros _ c _. apply length_inner_models.
Qed.

(** When the cluster identifiers are exactly [0 .. n-1], [fit] trains the
    models the specification describes, and as many as it counts. *)
Lemma nested_fit_zero_based clf params (clusters : list Z) shuffle
    (x_data : matrix) (y_data : list Label) :
  np_unique clusters = seqZ 0 (Z.of_nat (n_distinct clusters)) →
  length clusters ≤ length x_data →
  length clusters ≤ length y_data →
  let self := __init__ clf params clusters shuffle in
  fit x_data y_data self
  = (models_extend (spec_fit_models self x_data y_data) self, Ok ())
  ∧ length (spec_fit_models self x_data y_data) = spec_model_count clusters.
Proof.
  intros Hids Hx Hy self. split; [|apply length_spec_fit_models].
  rewrite nested_fit_appends by done.
  unfold fit_models, spec_fit_models. simpl.
  by rewrite length_np_unique, Hids.
Qed.

End nested_models.

(** C1 (fails on the code).  [NestedClusterCVClassifier.fit] runs its outer
    loop over [range(n_folds)], not over the cluster identifiers of the
    assignment vector.  With the identifiers [1, 2, 3] on three samples the
    loop value [0] excludes nobody and [3] is never excluded: [fit] trains
    seven models, the first three on two samples each, where the claim
    counts six models, each trained on a single sample. *)
Theorem nested_fit_one_based_clusters :
  let self : NestedClusterCVClassifier.t FrequencyModel.t Z :=
    NestedClusterCVClassifier.__init__ FrequencyModel.new ∅ [1; 2; 3]%Z true in
  let x_data : matrix := [[1]; [2]; [3]]%Q in
  let y_data : list Z := [0; 1; 0]%Z in
  let trained := NestedClusterCVClassifier.models
                   (NestedClusterCVClassifier.fit x_data y_data self).1 in
  (NestedClusterCVClassifier.fit x_data y_data self).2 = Ok ()
  ∧ length trained = 7
  ∧ spec_model_count [1; 2; 3]%Z = 6
  ∧ length (spec_fit_models self x_data y_data) = 6
  ∧ FrequencyModel.train_x <$> trained
    = [ [[2]; [3]]; [[1]; [3]]; [[1]; [2]]; [[3]]; [[2]]; [[3]]; [[1]] ]%Q
  ∧ FrequencyModel.train_x <$> spec_fit_models self x_data y_data
    = [ [[3]]; [[2]]; [[3]]; [[1]]; [[2]]; [[1]] ]%Q.
Proof. vm_compute. repeat split; reflexivity. Qed.

Section cv_models.
Context {Model Label : Type} `{!BaseModel Model Label} `{!StratifiedKFold Label}.
Import CVClassifier.

(** C3.  On a dataset the stratified splitter accepts, [CVClassifier.fit]
    returns and appends exactly [n_folds] models to the owned list, in fold
    order: the model of a fold is a new estimator, built by the configured
    constructor from the configured parameters and fitted on the samples
    that are not in the fold. *)
Theorem cv_fit_trains_one_model_per_fold (self : t Model Label)
    (x_data : matrix) (y_data : list Label) (random_state : pyval)
    (kf : list (list nat * list nat)) :
  params self !! "random_state" = Some random_state →
  skf_split (n_folds self) (shuffle self) random_state x_data y_data = Ok kf →
  accepted_split (n_folds self) (length x_data) kf →
  length y_data = length x_data →
  fit x_data y_data self
  = (cv_models_extend
       ((λ fold, model_fit (clf self (params self))
                           (outside fold.2 x_data) (outside fold.2 y_data))
        <$> kf) self, Ok ())
  ∧ Z.of_nat (length kf) = n_folds self.
Proof.
  intros Hrs Hsplit [Hk Hkf] Hlen. split; [|done].
  by apply (cv_fit_appends self x_data y_data random_state kf).
Qed.

End cv_models.

Lemma cv_fit_trains_one_model_per_fold_witness :
  CVClassifier.fit Samples.x_data Samples.y_data Samples.cv
  = (cv_models_extend
       ((λ fold, model_fit (FrequencyModel.new {["random_state" := PyInt 7]})
                           (outside fold.2 Samples.x_data)
                           (outside fold.2 Samples.y_data))
        <$> Samples.kf) Samples.cv, Ok ())
  ∧ Z.of_nat (length Samples.kf) = 3%Z.
Proof.
  apply (cv_fit_trains_one_model_per_fold Samples.cv Samples.x_data
           Samples.y_data (PyInt 7) Samples.kf).
  - reflexivity.
  - reflexivity.
  - split; [reflexivity|]. repeat constructor.
  - reflexivity.
Defined.

(** ** Calling [fit] twice *)

Section fit_twice.
Context {Model Label : Type} `{!BaseModel Model Label} `{!StratifiedKFold Label}.

(** C9.  A second [fit] appends to the owned list and replaces nothing.
    After two calls that the splitter accepted, a [CVClassifier] holds the
    models it held before, then the [n_folds] models of the first call, then
    the [n_folds] models of the second; built by [__init__] it owns
    [2 * n_folds] models.  After two calls on aligned data a
    [NestedClusterCVClassifier] holds the models it held before, then the
    models of the first call, then as many again from the second. *)
Theorem fit_twice_appends :
  (∀ (self : CVClassifier.t Model Label) x1 y1 x2 y2 random_state kf1 kf2,
     CVClassifier.params self !! "random_state" = Some random_state →
     skf_split (CVClassifier.n_folds self) (CVClassifier.shuffle self)
       random_state x1 y1 = Ok kf1 →
     accepted_split (CVClassifier.n_folds self) (length x1) kf1 →
     length y1 = length x1 →
     skf_split (CVClassifier.n_folds self) (CVClassifier.shuffle self)
       random_state x2 y2 = Ok kf2 →
     accepted_split (CVClassifier.n_folds self) (length x2) kf2 →
     length y2 = length x2 →
     ∃ self1 self2 new1 new2,
       CVClassifier.fit x1 y1 self = (self1, Ok ())
       ∧ CVClassifier.fit x2 y2 self1 = (self2, Ok ())
       ∧ CVClassifier.models self1 = CVClassifier.models self ++ new1
       ∧ CVClassifier.models self2 = CVClassifier.models self ++ new1 ++ new2
       ∧ Z.of_nat (length new1) = CVClassifier.n_folds self
       ∧ Z.of_nat (length new2) = CVClassifier.n_folds self
       ∧ (CVClassifier.models self = [] →
          Z.of_nat (length (CVClassifier.models self2))
          = (2 * CVClassifier.n_folds self)%Z))
  ∧ (∀ (self : NestedClusterCVClassifier.t Model Label) x1 y1 x2 y2,
       length (NestedClusterCVClassifier.outer_clusters self) ≤ length x1 →
       length (NestedClusterCVClassifier.outer_clusters self) ≤ length y1 →
       length (NestedClusterCVClassifier.outer_clusters self) ≤ length x2 →
       length (NestedClusterCVClassifier.outer_clusters self) ≤ length y2 →
       ∃ self1 self2 new1 new2,
         NestedClusterCVClassifier.fit x1 y1 self = (self1, Ok ())
         ∧ NestedClusterCVClassifier.fit x2 y2 self1 = (self2, Ok ())
         ∧ NestedClusterCVClassifier.models self1
           = NestedClusterCVClassifier.models self ++ new1
         ∧ NestedClusterCVClassifier.models self2
           = NestedClusterCVClassifier.models self ++ new1 ++ new2
         ∧ length new1 = nested_model_count self
         ∧ length new2 = nested_model_count self
         ∧ (NestedClusterCVClassifier.models self = [] →
            length (NestedClusterCVClassifier.models self2)
            = 2 * nested_model_count self)).
Proof.
  split.
  - intros self x1 y1 x2 y2 rs kf1 kf2 Hrs Hs1 [Hk1 Hkf1] Hl1 Hs2 [Hk2 Hkf2] Hl2.
    set (self1 := cv_models_extend (fold_model self x1 y1 <$> kf1) self).
    exists self1, (cv_models_extend (fold_model self1 x2 y2 <$> kf2) self1),
      (fold_model self x1 y1 <$> kf1), (fold_model self1 x2 y2 <$> kf2).
    split; [by apply (cv_fit_appends self x1 y1 rs kf1)|].
    split; [by apply (cv_fit_appends self1 x2 y2 rs kf2)|].
    split; [done|]. split; [by rewrite app_assoc|].
    rewrite !length_fmap. split; [done|]. split; [done|].
    intros Hnil. simpl. rewrite Hnil. simpl.
    rewrite length_app, !length_fmap. lia.
  - intros self x1 y1 x2 y2 Hx1 Hy1 Hx2 Hy2.
    set (self1 := models_extend (fit_models self x1 y1) self).
    exists self1, (models_extend (fit_models self1 x2 y2) self1),
      (fit_models self x1 y1), (fit_models self1 x2 y2).
    split; [by apply nested_fit_appends|].
    split; [by apply nested_fit_appends|].
    split; [done|]. split; [by rewrite app_assoc|].
    rewrite !length_fit_models. split; [done|]. split; [done|].
    intros Hnil. simpl. rewrite Hnil. simpl.
    rewrite length_app, !length_fit_models.
    change (nested_model_count self1) with (nested_model_count self). lia.
Qed.

End fit_twice.

Lemma fit_twice_appends_witness :
  Z.of_nat (length (CVClassifier.models
    (CVClassifier.fit Samples.x_data Samples.y_data
       (CVClassifier.fit Samples.x_data Samples.y_data Samples.cv).1).1)) = 6%Z
  ∧ length (NestedClusterCVClassifier.models
      (NestedClusterCVClassifier.fit Samples.x_data Samples.y_data
         (NestedClusterCVClassifier.fit Samples.x_data Samples.y_data
            Samples.nested).1).1) = 12.
Proof.
  destruct (fit_twice_appends (Model:=FrequencyModel.t) (Label:=Z))
    as [Hcv Hnested].
  split.
  - assert (accepted_split 3 6 Samples.kf) as Hkf
      by (split; [reflexivity|repeat constructor]).
    destruct (Hcv Samples.cv Samples.x_data Samples.y_data Samples.x_data
                Samples.y_data (PyInt 7) Samples.kf Samples.kf
                eq_refl eq_refl Hkf eq_refl eq_refl Hkf eq_refl)
      as (self1 & self2 & new1 & new2 & Hfit1 & Hfit2 & _ & _ & _ & _ & Hlen).
    rewrite Hfit1. simpl. rewrite Hfit2. simpl. by apply Hlen.
  - assert (length Samples.clusters ≤ 6) as Hsix by (simpl; lia).
    destruct (Hnested Samples.nested Samples.x_data Samples.y_data
                Samples.x_data Samples.y_data Hsix Hsix Hsix Hsix)
      as (self1 & self2 & new1 & new2 & Hfit1 & Hfit2 & _ & _ & _ & _ & Hlen).
    rewrite Hfit1. simpl. rewrite Hfit2. simpl. by apply Hlen.
Defined.

(** ** [predict_proba] before [fit] *)

Section unfitted.
Context {Model Label : Type} `{!BaseModel Model Label}.

(** C10.  With an empty owned list [predict_proba] raises nothing: the sum
    over no arrays is the scalar [0], and the result is that scalar divided
    by [n_folds], not a probability array. *)
Theorem predict_proba_unfitted_is_scalar :
  (∀ (self : CVClassifier.t Model Label) (x_data : matrix),
     CVClassifier.models self = [] →
     CVClassifier.predict_proba self x_data
     = Ok (Scalar (0 / inject_Z (CVClassifier.n_folds self))))
  ∧ (∀ (self : NestedClusterCVClassifier.t Model Label) (x_data : matrix),
       NestedClusterCVClassifier.models self = [] →
       NestedClusterCVClassifier.predict_proba self x_data
       = Ok (Scalar (0 / inject_Z (NestedClusterCVClassifier.n_folds self)))).
Proof.
  split; intros self x_data Hnil.
  - unfold CVClassifier.predict_proba, CVClassifier._mean_proba.
    by rewrite Hnil.
  - unfold NestedClusterCVClassifier.predict_proba,
      NestedClusterCVClassifier._mean_proba.
    by rewrite Hnil.
Qed.

End unfitted.

Lemma predict_proba_unfitted_is_scalar_witness :
  CVClassifier.predict_proba Samples.cv Samples.x_new
  = Ok (Scalar (0 / inject_Z 3))
  ∧ NestedClusterCVClassifier.predict_proba Samples.nested Samples.x_new
    = Ok (Scalar (0 / inject_Z 3)).
Proof.
  destruct (predict_proba_unfitted_is_scalar (Model:=FrequencyModel.t) (Label:=Z))
    as [Hcv Hnested].
  split.
  - by apply (Hcv Samples.cv Samples.x_new).
  - by apply (Hnested Samples.nested Samples.x_new).
Defined.

(** ** What [fit] can change *)

Lemma for_extends {S A E} (extend : list E → S → S) (l : list A)
    (body : A → M S unit) :
  (∀ s, extend [] s = s) →
  (∀ a b s, extend b (extend a s) = extend (a ++ b) s) →
  (∀ x s s' r, body x s = (s', r) → ∃ ms, s' = extend ms s) →
  ∀ s s' r, for_ l body s = (s', r) → ∃ ms, s' = extend ms s.
Proof.
  intros Hnil Hcomp Hbody.
  induction l as [|x l IH]; intros s s' r Hrun.
  - injection Hrun as <- _. exists []. by rewrite Hnil.
  - simpl in Hrun. unfold mbind at 1, M_bind in Hrun.
    destruct (body x s) as [s1 [[]|e]] eqn:Hx.
    + apply Hbody in Hx as [ms1 ->]. apply IH in Hrun as [ms2 ->].
      exists (ms1 ++ ms2). by rewrite Hcomp.
    + injection Hrun as <- _. by apply Hbody in Hx.
Qed.

Section nested_reachable.
Context {Model Label : Type} `{!BaseModel Model Label}.
Import NestedClusterCVClassifier.

(** Whether it returns or raises, [fit] only appends to the owned list. *)
Lemma nested_fit_extends (x_data : matrix) (y_data : list Label)
    (self self' : t Model Label) (r : result unit) :
  fit x_data y_data self = (self', r) → ∃ ms, self' = models_extend ms self.
Proof.
  unfold fit. unfold mbind at 1, M_bind, gets.
  apply for_extends;
    [apply models_extend_nil|apply models_extend_extend|].
  clear. intros fold s s' r.
  unfold mbind at 1, M_bind, gets.
  unfold mbind at 1, M_bind, lift.
  destruct (np_take x_data _) as [inner_x|e];
    [|intros [= <- _]; exists []; by rewrite models_extend_nil].
  unfold mbind at 1, M_bind.
  destruct (np_take y_data _) as [inner_y|e];
    [|intros [= <- _]; exists []; by rewrite models_extend_nil].
  unfold mbind at 1, M_bind.
  destruct (np_take (outer_clusters s) _) as [inner_clusters|e];
    [|intros [= <- _]; exists []; by rewrite models_extend_nil].
  apply for_extends;
    [apply models_extend_nil|apply models_extend_extend|].
  clear. intros inner_fold s s' r.
  unfold mbind at 1, M_bind, get.
  unfold mbind at 1, M_bind, lift.
  destruct (np_take inner_x _) as [train_x|e];
    [|intros [= <- _]; exists []; by rewrite models_extend_nil].
  unfold mbind at 1, M_bind.
  destruct (np_take inner_y _) as [train_y|e];
    [|intros [= <- _]; exists []; by rewrite models_extend_nil].
  unfold modify. intros [= <- _]. by eexists [_].
Qed.

(** [n_folds] of a reachable ensemble is the number of distinct cluster
    identifiers of its assignment vector. *)
Lemma reachable_n_folds (self : t Model Label) :
  reachable self → n_folds self = Z.of_nat (n_distinct (outer_clusters self)).
Proof.
  induction 1 as [clf params clusters shuffle
                 |self x_data y_data self' r _ IH Hfit|self cs _ IH].
  - simpl. by rewrite length_np_unique.
  - apply nested_fit_extends in Hfit as [ms ->]. exact IH.
  - exact IH.
Qed.

End nested_reachable.

(** ** Predicting with an ensemble *)

Lemma Forall2_chain {A B C} (P : A → B → Prop) (Q : B → C → Prop)
    (l : list A) (k : list B) (m : list C) :
  Forall2 P l k → Forall2 Q k m →
  Forall2 (λ x z, ∃ y, P x y ∧ Q y z) l m.
Proof.
  intros Hlk. revert m. induction Hlk as [|x y l k Hxy _ IH]; intros m Hkm.
  - inversion Hkm. constructor.
  - inversion Hkm as [|? z ? m' Hyz Hkm']; subst.
    constructor; [by exists y|by apply IH].
Qed.

(** Selecting labels from a mean array: every row gives the entry of
    [classes_] at the lowest position of the row's maximum. *)
Lemma argmax_labels {Label} (mean : matrix) r c (cs : list Label) :
  has_shape r c mean → 0 < c → c ≤ length cs →
  ∃ labels,
    (np_argmax_axis1 (Array2 mean) ≫= λ best,
       mapM (classes_getitem (Some cs)) best) = Ok labels
    ∧ Forall2 (λ row l, ∃ b, first_max row b ∧ cs !! b = Some l) mean labels.
Proof.
  intros [_ Hrows] Hc Hcs.
  destruct (mapM_result_Forall argmax (λ row b, first_max row b) mean)
    as (best & Hbest & Hfirst).
  { eapply Forall_impl; [done|]. intros row Hrow. simpl in Hrow.
    apply argmax_first_max. intros ->. simpl in Hrow. lia. }
  destruct (mapM_result_Forall (classes_getitem (Some cs))
              (λ b l, cs !! b = Some l) best) as (labels & Hlabels & Hsel).
  { apply Forall_forall. intros b Hb.
    apply list_elem_of_lookup in Hb as [i Hi].
    destruct (Forall2_lookup_r _ _ _ _ _ Hfirst Hi) as (row & Hrow & Hmax).
    pose proof (first_max_lt _ _ Hmax) as Hlt.
    rewrite (proj1 (Forall_lookup _ _) Hrows _ _ Hrow) in Hlt.
    destruct (lookup_lt_is_Some_2 cs b) as [l Hl]; [lia|].
    exists l. simpl. by rewrite Hl. }
  exists labels. split.
  - simpl. rewrite Hbest. simpl. exact Hlabels.
  - by eapply Forall2_chain.
Qed.

Section cv_predict.
Context {Model Label : Type} `{!BaseModel Model Label}.
Import CVClassifier.

(** C4.  A [CVClassifier] that owns as many models as it has folds, [k] of
    them, all predicting arrays of one shape: [predict_proba] returns an
    array of that shape whose every entry is the sum of the [k] models'
    entries divided by [k]. *)
Theorem cv_predict_proba_is_mean (self : t Model Label) (x_data : matrix)
    (k r c : nat) :
  0 < k →
  length (models self) = k →
  n_folds self = Z.of_nat k →
  Forall (λ model, has_shape r c (model_predict_proba model x_data))
         (models self) →
  ∃ mean,
    predict_proba self x_data = Ok (Array2 mean)
    ∧ has_shape r c mean
    ∧ ∀ i j, i < r → j < c →
        (entry mean i j
         == Qsum ((λ model, entry (model_predict_proba model x_data) i j)
                  <$> models self) / inject_Z (Z.of_nat k))%Q.
Proof.
  intros Hk Hlen Hfolds Hshape.
  destruct (mean_entries
              ((λ model, model_predict_proba model x_data) <$> models self)
              (n_folds self) r c) as (mean & Hmean & Hsh & Hentry).
  - intros Hnil. apply fmap_nil_inv in Hnil. rewrite Hnil in Hlen.
    simpl in Hlen. lia.
  - by apply Forall_fmap.
  - exists mean. split; [done|]. split; [done|].
    intros i j Hi Hj. rewrite Hentry by done.
    by rewrite <- list_fmap_compose, Hfolds.
Qed.

End cv_predict.

Lemma cv_predict_proba_is_mean_witness :
  ∃ mean,
    CVClassifier.predict_proba Samples.cv_fitted Samples.x_new = Ok (Array2 mean)
    ∧ has_shape 2 2 mean
    ∧ ∀ i j, i < 2 → j < 2 →
        (entry mean i j
         == Qsum ((λ model, entry (model_predict_proba model Samples.x_new) i j)
                  <$> CVClassifier.models Samples.cv_fitted)
            / inject_Z (Z.of_nat 3))%Q.
Proof.
  apply (cv_predict_proba_is_mean Samples.cv_fitted Samples.x_new 3 2 2).
  - lia.
  - reflexivity.
  - reflexivity.
  - repeat constructor.
Defined.

Section nested_predict.
Context {Model Label : Type} `{!BaseModel Model Label}.
Import NestedClusterCVClassifier.

(** C2.  A [NestedClusterCVClassifier] that owns models, all predicting
    arrays of one shape: [predict_proba] returns an array of that shape whose
    every entry is the sum of the entries of all owned models divided by the
    number of distinct cluster identifiers, however many models are owned;
    and [predict] returns, for every row of that array, the entry of
    [classes_] at the lowest position of the row's maximum. *)
Theorem nested_predict_proba_divides_by_outer_folds (self : t Model Label)
    (x_data : matrix) (r c : nat) :
  reachable self →
  models self ≠ [] →
  Forall (λ model, has_shape r c (model_predict_proba model x_data))
         (models self) →
  ∃ mean,
    predict_proba self x_data = Ok (Array2 mean)
    ∧ has_shape r c mean
    ∧ (∀ i j, i < r → j < c →
         (entry mean i j
          == Qsum ((λ model, entry (model_predict_proba model x_data) i j)
                   <$> models self)
             / inject_Z (Z.of_nat (n_distinct (outer_clusters self))))%Q)
    ∧ (∀ cs, classes_ self = Some cs → 0 < c → c ≤ length cs →
         ∃ labels,
           predict self x_data = Ok labels
           ∧ Forall2 (λ row l, ∃ b, first_max row b ∧ cs !! b = Some l)
                     mean labels).
Proof.
  intros Hreach Hne Hshape.
  destruct (mean_entries
              ((λ model, model_predict_proba model x_data) <$> models self)
              (n_folds self) r c) as (mean & Hmean & Hsh & Hentry).
  - intros Hnil. by apply fmap_nil_inv in Hnil.
  - by apply Forall_fmap.
  - exists mean. split; [done|]. split; [done|]. split.
    + intros i j Hi Hj. rewrite Hentry by done.
      by rewrite <- list_fmap_compose, (reachable_n_folds self).
    + intros cs Hcs Hc Hlen.
      destruct (argmax_labels mean r c cs Hsh Hc Hlen) as (labels & Hl & Hsel).
      exists labels. split; [|done].
      unfold predict. unfold _mean_proba. rewrite Hmean, Hcs. exact Hl.
Qed.

End nested_predict.

Lemma nested_predict_proba_divides_by_outer_folds_witness :
  length (NestedClusterCVClassifier.models Samples.nested_fitted) = 6
  ∧ ∃ mean,
      NestedClusterCVClassifier.predict_proba Samples.nested_fitted Samples.x_new
      = Ok (Array2 mean)
      ∧ has_shape 2 2 mean
      ∧ (∀ i j, i < 2 → j < 2 →
           (entry mean i j
            == Qsum ((λ model, entry (model_predict_proba model Samples.x_new) i j)
                     <$> NestedClusterCVClassifier.models Samples.nested_fitted)
               / inject_Z (Z.of_nat (n_distinct Samples.clusters)))%Q)
      ∧ (∀ cs, Some [0; 1]%Z = Some cs → 0 < 2 → 2 ≤ length cs →
           ∃ labels,
             NestedClusterCVClassifier.predict Samples.nested_fitted Samples.x_new
             = Ok labels
             ∧ Forall2 (λ row l, ∃ b, first_max row b ∧ cs !! b = Some l)
                       mean labels).
Proof.
  split; [reflexivity|].
  apply (nested_predict_proba_divides_by_outer_folds
           Samples.nested_fitted Samples.x_new 2 2).
  - apply reach_classes_.
    apply (reach_fit Samples.nested Samples.x_data Samples.y_data _ (Ok ()));
      [apply (reach_init FrequencyModel.new ∅ Samples.clusters true)
      |reflexivity].
  - discriminate.
  - repeat constructor.
Defined.

(** ** The store of feature tables *)

Lemma frame_ret {A} x (a : A) : frame x (mret a).
Proof. by intros h h' r [= <- _]. Qed.

Lemma frame_lift {A} x (r : result A) : frame x (lift r).
Proof. by intros h h' r' [= <- _]. Qed.

Lemma frame_deref x y : frame x (deref y).
Proof. by intros h h' r [= <- _]. Qed.

Lemma frame_bind {A B} x (c : M store A) (f : A → M store B) :
  frame x c → (∀ a, frame x (f a)) → frame x (c ≫= f).
Proof.
  intros Hc Hf h h' r. unfold mbind, M_bind.
  destruct (c h) as [h1 [a|e]] eqn:Hrun.
  - intros Hk l Hl. rewrite (Hf a _ _ _ Hk l Hl). by eapply Hc.
  - intros [= <- _]. by eapply Hc.
Qed.

Lemma frame_df_inplace x (f : DataFrame Q → result (DataFrame Q)) :
  frame x (df_inplace x f).
Proof.
  unfold df_inplace. apply frame_bind; [apply frame_deref|]. intros df.
  apply frame_bind; [apply frame_lift|]. intros df'.
  intros h h' r [= <- _] l Hl. by rewrite lookup_insert_ne.
Qed.

Lemma frame_preprocess redundant_cols scaler descriptors x :
  frame x (preprocess redundant_cols scaler descriptors x).
Proof.
  unfold preprocess. apply frame_bind.
  - destruct (truthy redundant_cols); [apply frame_df_inplace|apply frame_ret].
  - intros _. destruct scaler as [sc|]; [|apply frame_ret].
    apply frame_bind; [apply frame_deref|]. intros df.
    apply frame_bind; [apply frame_lift|]. intros selected.
    apply frame_bind; [apply frame_lift|]. intros scaled.
    apply frame_df_inplace.
Qed.

(** Copying the caller's table and reading the copy: the rest runs on a
    store that holds the copy at a new reference. *)
Lemma copy_deref_run {A} (k : loc → DataFrame Q → M store A) x h df :
  h !! x = Some df →
  (df_copy x ≫= λ x', deref x' ≫= k x') h
  = k (fresh (dom h)) df (<[fresh (dom h) := df]> h).
Proof.
  intros Hx. unfold df_copy, deref, alloc.
  unfold mbind, M_bind. rewrite Hx. simpl. by rewrite lookup_insert_eq.
Qed.

Lemma fresh_ne {V} (h : gmap positive V) l : is_Some (h !! l) → l ≠ fresh (dom h).
Proof.
  intros Hl ->. apply (is_fresh (dom h)). by apply elem_of_dom.
Qed.

Lemma yields_index_bind {A B} ix (c : M store A) (f : A → M store (DataFrame B)) :
  (∀ a, yields_index ix (f a)) → yields_index ix (c ≫= f).
Proof.
  intros Hf h h' out. unfold mbind, M_bind.
  destruct (c h) as [h1 [a|e]]; [apply Hf|done].
Qed.

Lemma yields_index_from_dict {A} (data : list (string * list A)) ix :
  yields_index ix (lift (df_from_dict data ix)).
Proof.
  intros h h' out. unfold lift, df_from_dict.
  destruct (forallb _ data); [|done]. by intros [= _ <-].
Qed.

Lemma yields_index_concat {A} (data : list (string * list A))
    (arr : list (list A)) cols ix :
  yields_index ix
    (lift (df_from_dict data ix) ≫= λ left,
     lift (df_from_array arr cols ix) ≫= λ right,
     lift (pd_concat_axis1 left right)).
Proof.
  intros h h' out. unfold mbind, M_bind, lift, df_from_dict, df_from_array,
    pd_concat_axis1.
  destruct (forallb _ data); [|done].
  destruct (bool_decide _); [|done]. simpl.
  rewrite bool_decide_eq_true_2 by done. by intros [= _ <-].
Qed.

(** ** The wrappers and the caller's table *)

Section wrappers.
Context {R C Label FingerprintInfo : Type}
  `{!RegressorModel R} `{!ClassifierModel C Label}.

(** What both wrappers do once the copy is made touches the copy only. *)
Lemma regressor_tail_frame (self : Regressor.t R FingerprintInfo) x' ix :
  frame x'
    (preprocess (Regressor.redundant_cols self) (Regressor.scaler self)
       (Regressor.descriptors self) x' ≫= λ _,
     deref x' ≫= λ df,
     lift (model_predict (Regressor.model self) (values df)) ≫= λ y,
     lift (df_from_dict [(Regressor.name self +:+ "_prediction", y)] ix)).
Proof.
  apply frame_bind; [apply frame_preprocess|]. intros _.
  apply frame_bind; [apply frame_deref|]. intros df.
  apply frame_bind; [apply frame_lift|]. intros y.
  apply frame_lift.
Qed.

Lemma regressor_tail_index (self : Regressor.t R FingerprintInfo) x' ix :
  yields_index ix
    (preprocess (Regressor.redundant_cols self) (Regressor.scaler self)
       (Regressor.descriptors self) x' ≫= λ _,
     deref x' ≫= λ df,
     lift (model_predict (Regressor.model self) (values df)) ≫= λ y,
     lift (df_from_dict [(Regressor.name self +:+ "_prediction", y)] ix)).
Proof.
  apply yields_index_bind. intros _.
  apply yields_index_bind. intros df.
  apply yields_index_bind. intros y.
  apply yields_index_from_dict.
Qed.

(** The store after a computation that ran on a store extended by a copy
    and touched the copy only: every table the caller held is as it was. *)
Lemma copy_frame_unchanged {A} (c : M store A) (h h' : store) df r :
  frame (fresh (dom h)) c →
  c (<[fresh (dom h) := df]> h) = (h', r) →
  ∀ l, is_Some (h !! l) → h' !! l = h !! l.
Proof.
  intros Hframe Hrun l Hl. pose proof (fresh_ne h l Hl) as Hne.
  rewrite (Hframe _ _ _ Hrun l Hne). by rewrite lookup_insert_ne.
Qed.

(** C7.  [Regressor.predict] and [Classifier.predict] work on a copy:
    whether they return or raise, the table the caller passed, and every
    other table of the caller, is afterwards what it was before; and a table
    they return carries the index of the input, in the same order. *)
Theorem predict_leaves_caller_table :
  (∀ (self : Regressor.t R FingerprintInfo) (x : loc) (h h' : store) df r,
     h !! x = Some df →
     Regressor.predict self x h = (h', r) →
     h' !! x = Some df
     ∧ (∀ l, is_Some (h !! l) → h' !! l = h !! l)
     ∧ (∀ out, r = Ok out → index out = index df))
  ∧ (∀ (self : Classifier.t C FingerprintInfo) (x : loc) (h h' : store) df r,
       h !! x = Some df →
       Classifier.predict self x h = (h', r) →
       h' !! x = Some df
       ∧ (∀ l, is_Some (h !! l) → h' !! l = h !! l)
       ∧ (∀ out, r = Ok out → index out = index df)).
Proof.
  split; intros self x h h' df r Hx Hrun.
  - unfold Regressor.predict in Hrun.
    rewrite (copy_deref_run _ x h df Hx) in Hrun. cbv zeta in Hrun.
    pose proof (copy_frame_unchanged _ h h' df r
                  (regressor_tail_frame self _ _) Hrun) as Hsame.
    split; [by rewrite Hsame|]. split; [done|].
    intros out ->. by eapply regressor_tail_index.
  - unfold Classifier.predict in Hrun.
    rewrite (copy_deref_run _ x h df Hx) in Hrun. cbv zeta in Hrun.
    assert (∀ l, is_Some (h !! l) → h' !! l = h !! l) as Hsame.
    { eapply copy_frame_unchanged; [|exact Hrun].
      apply frame_bind; [apply frame_preprocess|]. intros _.
      apply frame_bind; [apply frame_deref|]. intros df'.
      repeat (apply frame_bind; [apply frame_lift|]; intros ?).
      apply frame_lift. }
    split; [by rewrite Hsame|]. split; [done|].
    intros out ->.
    match type of Hrun with
    | ?c _ = _ => assert (yields_index (index df) c) as Hix
    end; [|by eapply Hix].
    apply yields_index_bind. intros _.
    apply yields_index_bind. intros df'.
    apply yields_index_bind. intros y.
    apply yields_index_bind. intros rows.
    apply yields_index_bind. intros picked.
    apply yields_index_bind. intros n_classes.
    apply yields_index_concat.
Qed.

End wrappers.

Lemma predict_leaves_caller_table_witness :
  (Regressor.predict Samples.regressor Samples.caller_table Samples.heap).1
    !! Samples.caller_table = Some Samples.features
  ∧ (Classifier.predict Samples.classifier Samples.caller_table Samples.heap).1
      !! Samples.caller_table = Some Samples.features.
Proof.
  destruct (predict_leaves_caller_table (R:=SumRegressor.t)
              (C:=CVClassifier.t FrequencyModel.t Z) (Label:=Z)
              (FingerprintInfo:=unit)) as [Hreg Hcls].
  split.
  - exact (proj1 (Hreg Samples.regressor Samples.caller_table Samples.heap _
                    Samples.features _ eq_refl (surjective_pairing _))).
  - exact (proj1 (Hcls Samples.classifier Samples.caller_table Samples.heap _
                    Samples.features _ eq_refl (surjective_pairing _))).
Defined.

(** ** Missing redundant columns *)

Lemma df_drop_missing {A} (df : DataFrame A) (labels : list string) c :
  c ∈ labels → c ∉ columns df → df_drop df labels = Raise ColumnNotFoundError.
Proof.
  intros Hin Hnot. unfold df_drop.
  destruct (forallb _ labels) eqn:Hall; [|done].
  rewrite forallb_forall in Hall.
  specialize (Hall c (proj1 (list_elem_of_In _ _) Hin)).
  by apply bool_decide_eq_true in Hall.
Qed.

(** With a listed column missing, [preprocess] raises at the drop and
    leaves the store as it found it. *)
Lemma preprocess_missing scaler descriptors x h df (cols : list string) c :
  h !! x = Some df → c ∈ cols → c ∉ columns df →
  preprocess (Some cols) scaler descriptors x h = (h, Raise ColumnNotFoundError).
Proof.
  intros Hx Hin Hnot. unfold preprocess.
  assert (truthy (Some cols) = true) as ->.
  { destruct cols; [by apply elem_of_nil in Hin|done]. }
  unfold mbind at 1, M_bind. unfold df_inplace.
  unfold mbind at 1, M_bind, deref. rewrite Hx. simpl or_raise.
  unfold mbind at 1, M_bind, lift. simpl default.
  by rewrite (df_drop_missing df cols c).
Qed.

Section wrappers_missing.
Context {R C Label FingerprintInfo : Type}
  `{!RegressorModel R} `{!ClassifierModel C Label}.

(** C8.  A wrapper whose redundant-column list names a column that the
    input table does not have: [predict] raises [ColumnNotFoundError] at the
    drop, whatever the scaler and the model would do, returns no table, and
    leaves the caller's table as it was. *)
Theorem predict_missing_redundant_column :
  (∀ (self : Regressor.t R FingerprintInfo) (x : loc) (h : store) df cols c,
     h !! x = Some df →
     Regressor.redundant_cols self = Some cols →
     c ∈ cols → c ∉ columns df →
     ∃ h', Regressor.predict self x h = (h', Raise ColumnNotFoundError)
           ∧ h' !! x = Some df)
  ∧ (∀ (self : Classifier.t C FingerprintInfo) (x : loc) (h : store) df cols c,
       h !! x = Some df →
       Classifier.redundant_cols self = Some cols →
       c ∈ cols → c ∉ columns df →
       ∃ h', Classifier.predict self x h = (h', Raise ColumnNotFoundError)
             ∧ h' !! x = Some df).
Proof.
  split; intros self x h df cols c Hx Hcols Hin Hnot;
    exists (<[fresh (dom h) := df]> h).
  - unfold Regressor.predict.
    rewrite (copy_deref_run _ x h df Hx). cbv zeta.
    unfold mbind at 1, M_bind.
    rewrite Hcols, (preprocess_missing _ _ _ _ df cols c)
      by (done || apply lookup_insert_eq).
    split; [done|]. rewrite lookup_insert_ne; [done|].
    intros Heq. by apply (fresh_ne h x).
  - unfold Classifier.predict.
    rewrite (copy_deref_run _ x h df Hx). cbv zeta.
    unfold mbind at 1, M_bind.
    rewrite Hcols, (preprocess_missing _ _ _ _ df cols c)
      by (done || apply lookup_insert_eq).
    split; [done|]. rewrite lookup_insert_ne; [done|].
    intros Heq. by apply (fresh_ne h x).
Qed.

End wrappers_missing.

Lemma predict_missing_redundant_column_witness :
  (Regressor.predict Samples.regressor_missing Samples.caller_table
     Samples.heap).2 = Raise ColumnNotFoundError
  ∧ (Classifier.predict Samples.classifier_missing Samples.caller_table
       Samples.heap).2 = Raise ColumnNotFoundError.
Proof.
  destruct (predict_missing_redundant_column (R:=SumRegressor.t)
              (C:=CVClassifier.t FrequencyModel.t Z) (Label:=Z)
              (FingerprintInfo:=unit)) as [Hreg Hcls].
  assert ("fp_999" ∈ ["fp_017"; "fp_999"]) as Hin by (by repeat constructor).
  assert ("fp_999" ∉ columns Samples.features) as Hnot
    by (apply (proj1 (bool_decide_eq_false _)); reflexivity).
  split.
  - destruct (Hreg Samples.regressor_missing Samples.caller_table Samples.heap
                Samples.features _ "fp_999" eq_refl eq_refl Hin Hnot)
      as (h' & Hrun & _).
    by rewrite Hrun.
  - destruct (Hcls Samples.classifier_missing Samples.caller_table Samples.heap
                Samples.features _ "fp_999" eq_refl eq_refl Hin Hnot)
      as (h' & Hrun & _).
    by rewrite Hrun.
Defined.

(** ** The prediction table of a classifier *)

Lemma df_inplace_ok x (f : DataFrame Q → result (DataFrame Q)) h df df' :
  h !! x = Some df → f df = Ok df' →
  df_inplace x f h = (<[x := df']> h, Ok ()).
Proof.
  intros Hx Hf. unfold df_inplace, deref, lift, modify.
  unfold mbind, M_bind. rewrite Hx. simpl. by rewrite Hf.
Qed.

Lemma scale_ok (scaler : option StandardScaler) descriptors x h d df' :
  h !! x = Some d →
  match scaler with
  | Some sc =>
      df_getitem d descriptors ≫= λ selected,
      transform sc selected ≫= λ scaled,
      df_loc_setitem d descriptors scaled
  | None => Ok d
  end = Ok df' →
  ∃ h', match scaler with
        | Some sc =>
            deref x ≫= λ df,
            lift (df_getitem df descriptors) ≫= λ selected,
            lift (transform sc selected) ≫= λ scaled,
            df_inplace x (λ df, df_loc_setitem df descriptors scaled)
        | None => mret ()
        end h = (h', Ok ())
        ∧ h' !! x = Some df'.
Proof.
  intros Hx Hscale. destruct scaler as [sc|].
  - destruct (df_getitem d descriptors) as [selected|e] eqn:Hsel; [|done].
    simpl in Hscale.
    destruct (transform sc selected) as [scaled|e] eqn:Htr; [|done].
    simpl in Hscale.
    exists (<[x := df']> h). split; [|apply lookup_insert_eq].
    unfold mbind at 1, M_bind, deref. rewrite Hx. simpl or_raise.
    unfold mbind at 1, M_bind, lift. rewrite Hsel.
    unfold mbind at 1, M_bind. rewrite Htr.
    by apply (df_inplace_ok x _ h d df').
  - injection Hscale as <-. by exists h.
Qed.

(** When the preprocessing of a table succeeds, [preprocess] returns and the
    reference names the preprocessed table. *)
Lemma preprocess_ok redundant_cols scaler descriptors x h df df' :
  h !! x = Some df →
  preprocessed redundant_cols scaler descriptors df = Ok df' →
  ∃ h', preprocess redundant_cols scaler descriptors x h = (h', Ok ())
        ∧ h' !! x = Some df'.
Proof.
  intros Hx Hpre. unfold preprocessed in Hpre. unfold preprocess.
  unfold mbind at 1, M_bind.
  destruct (truthy redundant_cols).
  - destruct (df_drop df (default [] redundant_cols)) as [d|e] eqn:Hd; [|done].
    rewrite (df_inplace_ok x _ h df d Hx Hd).
    apply (scale_ok scaler descriptors x _ d df'); [apply lookup_insert_eq|done].
  - by apply (scale_ok scaler descriptors x h df df').
Qed.

Lemma rows_of_two_columns {A} (a b : string) (c1 c2 : list A) (n : nat) :
  length c1 = n → length c2 = n →
  (λ i, omap (λ nc : string * list A, nc.2 !! i) [(a, c1); (b, c2)])
    <$> seq 0 n
  = zip_with (λ u v, [u; v]) c1 c2.
Proof.
  intros H1 H2. apply list_eq. intros i.
  rewrite list_lookup_fmap, lookup_zip_with.
  destruct (decide (i < n)) as [Hi|Hi].
  - rewrite lookup_seq_lt by done.
    destruct (lookup_lt_is_Some_2 c1 i) as [u Hu]; [lia|].
    destruct (lookup_lt_is_Some_2 c2 i) as [v Hv]; [lia|].
    simpl. by rewrite Hu, Hv.
  - rewrite lookup_seq_ge by lia.
    by rewrite (lookup_ge_None_2 c1) by lia.
Qed.

Lemma prediction_rows {Label} (picked : list (Label * Q)) :
  ∀ y : matrix,
    zip_with app
      (zip_with (λ u v, [u; v]) (CLabel <$> (fst <$> picked))
                                (CFloat <$> (snd <$> picked)))
      ((λ row : list Q, CFloat <$> row) <$> y)
    = zip_with (λ (pp : Label * Q) (row : list Q),
                  CLabel pp.1 :: CFloat pp.2 :: (CFloat <$> row)) picked y.
Proof.
  induction picked as [|pp picked IH]; intros [|row y]; try done.
  csimpl. by rewrite IH.
Qed.

Section classifier_table.
Context {C Label FingerprintInfo : Type} `{!ClassifierModel C Label}.
Import Classifier.

(** The pair the loop appends for a row as long as the class list. *)
Lemma pick_first_max (self : t C FingerprintInfo) (cs : list Label)
    (values : list Q) :
  wrapped_classes_ (model self) = Some cs →
  length values = length cs → 0 < length cs →
  ∃ pp, pick self values = Ok pp
        ∧ ∃ b, first_max values b
               ∧ cs !! b = Some pp.1 ∧ values !! b = Some pp.2.
Proof.
  intros Hcs Hlen Hpos.
  destruct (argmax_first_max values) as (b & Hb & Hmax).
  { intros ->. simpl in Hlen. lia. }
  pose proof (first_max_lt _ _ Hmax) as Hlt.
  destruct (lookup_lt_is_Some_2 cs b) as [c Hc]; [lia|].
  destruct Hmax as (v & Hv & Hmax).
  exists (c, v). split.
  - unfold pick. rewrite Hb, Hcs. simpl. rewrite Hc. simpl. by rewrite Hv.
  - exists b. split; [by exists v|done].
Qed.

(** What [Classifier.predict] returns on a table whose preprocessing
    succeeds, for a model that answers with one probability per class and
    row. *)
Lemma classifier_predict_run (self : t C FingerprintInfo) (x : loc)
    (h : store) (df df' : DataFrame Q) (y : matrix) (cs : list Label) (n : nat) :
  h !! x = Some df →
  length (index df) = n →
  preprocessed (redundant_cols self) (scaler self) (descriptors self) df
  = Ok df' →
  wrapped_predict_proba (model self) (values df') = Ok (Array2 y) →
  wrapped_classes_ (model self) = Some cs →
  has_shape n (length cs) y →
  0 < length cs →
  ∃ h' picked,
    predict self x h
    = (h', Ok (prediction_table (name self) (index df) picked y (length cs)))
    ∧ Forall2 (λ values pp, ∃ b, first_max values b
                                 ∧ cs !! b = Some pp.1
                                 ∧ values !! b = Some pp.2) y picked.
Proof.
  intros Hx Hn Hpre Hy Hcs [Hrows Hcols] Hpos.
  destruct (mapM_result_Forall (pick self)
              (λ values pp, ∃ b, first_max values b
                                 ∧ cs !! b = Some pp.1
                                 ∧ values !! b = Some pp.2) y)
    as (picked & Hpicked & Hsel).
  { eapply Forall_impl; [exact Hcols|]. intros values Hlen.
    by apply pick_first_max. }
  pose proof (Forall2_length _ _ _ Hsel) as Hlen.
  destruct (preprocess_ok (redundant_cols self) (scaler self)
              (descriptors self) (fresh (dom h))
              (<[fresh (dom h) := df]> h) df df')
    as (h' & Hrun & Hx'); [apply lookup_insert_eq|done|].
  exists h', picked. split; [|done].
  unfold predict. rewrite (copy_deref_run _ x h df Hx). cbv zeta.
  unfold mbind at 1, M_bind. rewrite Hrun.
  unfold mbind at 1, M_bind, deref. rewrite Hx'. simpl or_raise.
  unfold mbind at 1, M_bind, lift. rewrite Hy.
  unfold mbind at 1, M_bind. simpl np_iter.
  unfold mbind at 1, M_bind. rewrite Hpicked.
  unfold mbind at 1, M_bind. rewrite Hcs. simpl classes_len.
  unfold mbind at 1, M_bind.
  unfold df_from_dict. cbn [forallb snd].
  rewrite !bool_decide_eq_true_2 by (rewrite !length_fmap; lia).
  cbn [andb]. unfold mbind at 1, M_bind.
  unfold df_from_array.
  rewrite bool_decide_eq_true_2.
  2:{ split; [rewrite length_fmap; lia|].
      apply Forall_fmap. eapply Forall_impl; [exact Hcols|].
      intros row Hrow. simpl. by rewrite !length_fmap, length_seq. }
  unfold pd_concat_axis1. cbn [index].
  rewrite bool_decide_eq_true_2 by done.
  unfold prediction_table, prediction_columns. do 2 f_equal.
  cbn [columns values fmap list_fmap fst]. f_equal.
  rewrite (rows_of_two_columns _ _ _ _ (length (index df)))
    by (rewrite !length_fmap; lia).
  apply prediction_rows.
Qed.

End classifier_table.

Section classifier_claims.
Context {C Label FingerprintInfo : Type} `{!ClassifierModel C Label}.
Import Classifier.

(** C5.  On a table of [n] rows whose preprocessing succeeds, with a model
    that exposes [n_classes >= 1] classes and answers with an [n] by
    [n_classes] probability array, [Classifier.predict] returns a table of
    [1 + 1 + n_classes] columns, named [{name}_prediction],
    [{name}_probability] and [{name}_probability_{i}] for
    [i = 0 .. n_classes - 1] in this order, with [n] rows under the index of
    the input. *)
Theorem classifier_predict_table_shape (self : t C FingerprintInfo) (x : loc)
    (h : store) (df df' : DataFrame Q) (y : matrix) (cs : list Label) (n : nat) :
  h !! x = Some df →
  length (index df) = n →
  preprocessed (redundant_cols self) (scaler self) (descriptors self) df
  = Ok df' →
  wrapped_predict_proba (model self) (values df') = Ok (Array2 y) →
  wrapped_classes_ (model self) = Some cs →
  has_shape n (length cs) y →
  0 < length cs →
  ∃ h' out,
    predict self x h = (h', Ok out)
    ∧ columns out
      = [name self +:+ "_prediction"; name self +:+ "_probability"]
        ++ ((λ i : nat, name self +:+ "_probability_" +:+ pretty i)
            <$> seq 0 (length cs))
    ∧ length (columns out) = 1 + 1 + length cs
    ∧ index out = index df
    ∧ length (values out) = n
    ∧ Forall (λ row, length row = 1 + 1 + length cs) (values out).
Proof.
  intros Hx Hn Hpre Hy Hcs Hshape Hpos.
  destruct (classifier_predict_run self x h df df' y cs n)
    as (h' & picked & Hrun & Hsel); [done..|].
  pose proof (Forall2_length _ _ _ Hsel) as Hlen.
  destruct Hshape as [Hrows Hcols].
  eexists h', _. split; [exact Hrun|].
  split; [done|]. split.
  { simpl. by rewrite length_fmap, length_seq. }
  split; [done|]. split.
  { simpl. by rewrite length_zip_with, <- Hlen, Nat.min_id. }
  simpl. apply Forall_lookup. intros i row Hrow.
  apply lookup_zip_with_Some in Hrow as (pp & values & -> & _ & Hvalues).
  simpl. rewrite length_fmap.
  by rewrite (proj1 (Forall_lookup _ _) Hcols _ _ Hvalues).
Qed.

(** C6.  For every probability row the model produces, the table of
    [Classifier.predict] holds as prediction the class at the lowest
    position among those where the row is maximal, and as probability the
    row's value there: every position whose value equals the maximum is that
    position or a later one. *)
Theorem classifier_predict_first_maximum (self : t C FingerprintInfo) (x : loc)
    (h : store) (df df' : DataFrame Q) (y : matrix) (cs : list Label) (n : nat) :
  h !! x = Some df →
  length (index df) = n →
  preprocessed (redundant_cols self) (scaler self) (descriptors self) df
  = Ok df' →
  wrapped_predict_proba (model self) (values df') = Ok (Array2 y) →
  wrapped_classes_ (model self) = Some cs →
  has_shape n (length cs) y →
  0 < length cs →
  ∃ h' out,
    predict self x h = (h', Ok out)
    ∧ ∀ i row, y !! i = Some row →
        ∃ b c p rest,
          values out !! i = Some (CLabel c :: CFloat p :: rest)
          ∧ cs !! b = Some c
          ∧ row !! b = Some p
          ∧ (∀ j w, row !! j = Some w → (w <= p)%Q)
          ∧ (∀ j w, row !! j = Some w → (w == p)%Q → b ≤ j).
Proof.
  intros Hx Hn Hpre Hy Hcs Hshape Hpos.
  destruct (classifier_predict_run self x h df df' y cs n)
    as (h' & picked & Hrun & Hsel); [done..|].
  eexists h', _. split; [exact Hrun|].
  intros i row Hrow.
  destruct (Forall2_lookup_l _ _ _ _ _ Hsel Hrow)
    as (pp & Hpp & b & (v & Hv & Hmax & Hfirst) & Hc & Hp).
  assert (v = pp.2) as -> by congruence.
  exists b, pp.1, pp.2, (CFloat <$> row).
  split. { simpl. by rewrite lookup_zip_with, Hpp, Hrow. }
  split; [done|]. split; [done|]. split; [done|].
  intros j w Hj Heq. destruct (decide (b ≤ j)) as [|Hlt]; [done|].
  exfalso. assert (w < pp.2)%Q as Hw by (apply (Hfirst j w); [lia|done]).
  rewrite Heq in Hw. by apply Qlt_irrefl in Hw.
Qed.

End classifier_claims.

Lemma classifier_predict_table_shape_witness :
  ∃ h' out,
    Classifier.predict Samples.classifier Samples.caller_table Samples.heap
    = (h', Ok out)
    ∧ columns out
      = ["tox_prediction"; "tox_probability"]
        ++ ((λ i : nat, "tox" +:+ "_probability_" +:+ pretty i) <$> seq 0 2)
    ∧ length (columns out) = 1 + 1 + 2
    ∧ index out = [PyStr "mol_a"; PyStr "mol_b"]
    ∧ length (values out) = 2
    ∧ Forall (λ row, length row = 1 + 1 + 2) (values out).
Proof.
  eapply (classifier_predict_table_shape Samples.classifier Samples.caller_table
            Samples.heap Samples.features _ _ [0; 1]%Z 2).
  - reflexivity.
  - reflexivity.
  - vm_compute. reflexivity.
  - vm_compute. reflexivity.
  - reflexivity.
  - split; [reflexivity|]. repeat constructor.
  - simpl. lia.
Defined.

Lemma classifier_predict_first_maximum_witness :
  ∃ h' out,
    Classifier.predict Samples.classifier Samples.caller_table Samples.heap
    = (h', Ok out)
    ∧ ∀ i row, [[96 # 192; 96 # 192]; [96 # 192; 96 # 192]]%Q !! i = Some row →
        ∃ b c p rest,
          values out !! i = Some (CLabel c :: CFloat p :: rest)
          ∧ [0; 1]%Z !! b = Some c
          ∧ row !! b = Some p
          ∧ (∀ j w, row !! j = Some w → (w <= p)%Q)
          ∧ (∀ j w, row !! j = Some w → (w == p)%Q → b ≤ j).
Proof.
  eapply (classifier_predict_first_maximum Samples.classifier
            Samples.caller_table Samples.heap Samples.features _
            [[96 # 192; 96 # 192]; [96 # 192; 96 # 192]]%Q [0; 1]%Z 2).
  - reflexivity.
  - reflexivity.
  - vm_compute. reflexivity.
  - vm_compute. reflexivity.
  - reflexivity.
  - split; [reflexivity|]. repeat constructor.
  - simpl. lia.
Defined.

(** * Further properties *)

(** ** What a failing [fit] leaves behind *)

Section fit_outcomes.
Context {Model Label : Type} `{!BaseModel Model Label} `{!StratifiedKFold Label}.

(** Whether it returns or raises, [CVClassifier.fit] only appends to the
    owned list. *)
Lemma cv_fit_extends (x_data : matrix) (y_data : list Label)
    (self self' : CVClassifier.t Model Label) (r : result unit) :
  CVClassifier.fit x_data y_data self = (self', r) →
  ∃ ms, self' = cv_models_extend ms self.
Proof.
  unfold CVClassifier.fit. unfold mbind at 1, M_bind, get.
  unfold mbind at 1, M_bind, lift.
  destruct (or_raise KeyError _) as [random_state|e];
    [|intros [= <- _]; exists []; by rewrite cv_models_extend_nil].
  unfold mbind at 1, M_bind.
  destruct (skf_split _ _ _ _ _) as [kf|e];
    [|intros [= <- _]; exists []; by rewrite cv_models_extend_nil].
  apply for_extends; [apply cv_models_extend_nil| |].
  { intros a b s. unfold cv_models_extend. simpl. by rewrite app_assoc. }
  clear. intros [train_index test_index] s s' r.
  unfold mbind at 1, M_bind, get.
  unfold mbind at 1, M_bind, lift.
  destruct (np_take x_data _) as [train_x|e];
    [|intros [= <- _]; exists []; by rewrite cv_models_extend_nil].
  unfold mbind at 1, M_bind.
  destruct (np_take y_data _) as [train_y|e];
    [|intros [= <- _]; exists []; by rewrite cv_models_extend_nil].
  unfold modify. intros [= <- _]. by eexists [_].
Qed.

(** [fit] never drops, replaces or reorders a model and never touches
    another attribute: whatever the data and whether the call returns or
    raises, the ensemble afterwards is the ensemble before with models
    appended to its owned list. *)
Theorem fit_only_appends :
  (∀ (self self' : CVClassifier.t Model Label) x_data y_data r,
     CVClassifier.fit x_data y_data self = (self', r) →
     ∃ ms, self' = cv_models_extend ms self)
  ∧ (∀ (self self' : NestedClusterCVClassifier.t Model Label) x_data y_data r,
       NestedClusterCVClassifier.fit x_data y_data self = (self', r) →
       ∃ ms, self' = models_extend ms self).
Proof.
  split; intros self self' x_data y_data r Hfit.
  - by eapply cv_fit_extends.
  - by eapply nested_fit_extends.
Qed.

(** [CVClassifier.fit] reads [params['random_state']] and asks the splitter
    for the folds before it trains anything: without the key it raises
    [KeyError], and an error of the splitter is passed on; in both cases the
    ensemble is left exactly as it was. *)
Theorem cv_fit_fails_before_training :
  (∀ (self : CVClassifier.t Model Label) x_data y_data,
     CVClassifier.params self !! "random_state" = None →
     CVClassifier.fit x_data y_data self = (self, Raise KeyError))
  ∧ (∀ (self : CVClassifier.t Model Label) x_data y_data random_state e,
       CVClassifier.params self !! "random_state" = Some random_state →
       skf_split (CVClassifier.n_folds self) (CVClassifier.shuffle self)
         random_state x_data y_data = Raise e →
       CVClassifier.fit x_data y_data self = (self, Raise e)).
Proof.
  split.
  - intros self x_data y_data Hrs. unfold CVClassifier.fit.
    unfold mbind at 1, M_bind, get.
    unfold mbind at 1, M_bind, lift. by rewrite Hrs.
  - intros self x_data y_data rs e Hrs Hsplit. unfold CVClassifier.fit.
    unfold mbind at 1, M_bind, get.
    unfold mbind at 1, M_bind, lift. rewrite Hrs. simpl or_raise.
    unfold mbind at 1, M_bind. by rewrite Hsplit.
Qed.

End fit_outcomes.

Lemma fit_only_appends_witness :
  (∃ ms, (CVClassifier.fit Samples.x_data Samples.y_data Samples.cv).1
         = cv_models_extend ms Samples.cv)
  ∧ (∃ ms, (NestedClusterCVClassifier.fit [[1]]%Q [0]%Z Samples.nested).1
           = models_extend ms Samples.nested).
Proof.
  destruct (fit_only_appends (Model:=FrequencyModel.t) (Label:=Z))
    as [Hcv Hnested].
  split.
  - exact (Hcv Samples.cv _ Samples.x_data Samples.y_data _
             (surjective_pairing _)).
  - exact (Hnested Samples.nested _ [[1]]%Q [0]%Z _ (surjective_pairing _)).
Defined.

Lemma cv_fit_fails_before_training_witness :
  CVClassifier.fit Samples.x_data Samples.y_data Samples.cv_no_seed
  = (Samples.cv_no_seed, Raise KeyError)
  ∧ CVClassifier.fit Samples.x_data [0; 1]%Z Samples.cv
    = (Samples.cv, Raise ValueError).
Proof.
  destruct (cv_fit_fails_before_training (Model:=FrequencyModel.t) (Label:=Z))
    as [Hkey Hsplit].
  split.
  - exact (Hkey Samples.cv_no_seed Samples.x_data Samples.y_data eq_refl).
  - exact (Hsplit Samples.cv Samples.x_data [0; 1]%Z (PyInt 7) ValueError
             eq_refl eq_refl).
Defined.

(** ** Predicting labels *)

(** Without [classes_] no label can be selected for a row. *)
Lemma argmax_without_classes {Label} (mean : matrix) r c :
  has_shape r c mean → 0 < r → 0 < c →
  (np_argmax_axis1 (Array2 mean) ≫= λ best,
     mapM (classes_getitem (@None (list Label))) best) = Raise TypeError.
Proof.
  intros [Hr Hrows] Hpos Hc.
  destruct (mapM_result_Forall argmax (λ row b, first_max row b) mean)
    as (best & Hbest & Hfirst).
  { eapply Forall_impl; [done|]. intros row Hrow. simpl in Hrow.
    apply argmax_first_max. intros ->. simpl in Hrow. lia. }
  simpl. rewrite Hbest. simpl.
  pose proof (Forall2_length _ _ _ Hfirst) as Hlen.
  destruct best as [|b best]; [simpl in Hlen; lia|done].
Qed.

Lemma argmax_labels_elem_of {Label} (mean : matrix) (cs labels : list Label) :
  Forall2 (λ row l, ∃ b, first_max row b ∧ cs !! b = Some l) mean labels →
  Forall (λ l, l ∈ cs) labels.
Proof.
  induction 1 as [|row l mean labels (b & _ & Hl) _ IH]; constructor; [|done].
  by eapply list_elem_of_lookup_2.
Qed.

Section ensemble_predict.
Context {Model Label : Type} `{!BaseModel Model Label}.

(** [predict] before [fit]: the mean over no models is a 0-d scalar, and
    [np.argmax(..., axis=1)] of it raises [AxisError], in both ensembles,
    whether or not [classes_] was assigned. *)
Theorem predict_unfitted_raises :
  (∀ (self : CVClassifier.t Model Label) (x_data : matrix),
     CVClassifier.models self = [] →
     CVClassifier.predict self x_data = Raise AxisError)
  ∧ (∀ (self : NestedClusterCVClassifier.t Model Label) (x_data : matrix),
       NestedClusterCVClassifier.models self = [] →
       NestedClusterCVClassifier.predict self x_data = Raise AxisError).
Proof.
  split; intros self x_data Hnil.
  - unfold CVClassifier.predict, CVClassifier._mean_proba. by rewrite Hnil.
  - unfold NestedClusterCVClassifier.predict,
      NestedClusterCVClassifier._mean_proba.
    by rewrite Hnil.
Qed.

(** [predict] on a fitted ensemble whose [classes_] is still [None]: with at
    least one row to predict and one probability column, indexing [None]
    raises [TypeError], in both ensembles. *)
Theorem predict_without_classes_raises :
  (∀ (self : CVClassifier.t Model Label) (x_data : matrix) r c,
     CVClassifier.models self ≠ [] →
     Forall (λ model, has_shape r c (model_predict_proba model x_data))
            (CVClassifier.models self) →
     0 < r → 0 < c →
     CVClassifier.classes_ self = None →
     CVClassifier.predict self x_data = Raise TypeError)
  ∧ (∀ (self : NestedClusterCVClassifier.t Model Label) (x_data : matrix) r c,
       NestedClusterCVClassifier.models self ≠ [] →
       Forall (λ model, has_shape r c (model_predict_proba model x_data))
              (NestedClusterCVClassifier.models self) →
       0 < r → 0 < c →
       NestedClusterCVClassifier.classes_ self = None →
       NestedClusterCVClassifier.predict self x_data = Raise TypeError).
Proof.
  split; intros self x_data r c Hne Hshape Hr Hc Hcls.
  - destruct (mean_entries
                ((λ model, model_predict_proba model x_data)
                 <$> CVClassifier.models self)
                (CVClassifier.n_folds self) r c) as (mean & Hmean & Hsh & _).
    { intros Hnil. by apply fmap_nil_inv in Hnil. }
    { by apply Forall_fmap. }
    unfold CVClassifier.predict, CVClassifier._mean_proba.
    rewrite Hmean, Hcls. by apply (argmax_without_classes mean r c).
  - destruct (mean_entries
                ((λ model, model_predict_proba model x_data)
                 <$> NestedClusterCVClassifier.models self)
                (NestedClusterCVClassifier.n_folds self) r c)
      as (mean & Hmean & Hsh & _).
    { intros Hnil. by apply fmap_nil_inv in Hnil. }
    { by apply Forall_fmap. }
    unfold NestedClusterCVClassifier.predict,
      NestedClusterCVClassifier._mean_proba.
    rewrite Hmean, Hcls. by apply (argmax_without_classes mean r c).
Qed.

(** [CVClassifier.predict] on a fitted ensemble with [classes_] assigned:
    one label per row of the mean probabilities, the entry of [classes_] at
    the lowest position of the row's maximum; every label it returns is an
    entry of [classes_]. *)
Theorem cv_predict_selects_first_maximum (self : CVClassifier.t Model Label)
    (x_data : matrix) (r c : nat) (cs : list Label) :
  CVClassifier.models self ≠ [] →
  Forall (λ model, has_shape r c (model_predict_proba model x_data))
         (CVClassifier.models self) →
  CVClassifier.classes_ self = Some cs →
  0 < c → c ≤ length cs →
  ∃ mean labels,
    CVClassifier.predict_proba self x_data = Ok (Array2 mean)
    ∧ CVClassifier.predict self x_data = Ok labels
    ∧ length labels = r
    ∧ Forall2 (λ row l, ∃ b, first_max row b ∧ cs !! b = Some l) mean labels
    ∧ Forall (λ l, l ∈ cs) labels.
Proof.
  intros Hne Hshape Hcs Hc Hlen.
  destruct (mean_entries
              ((λ model, model_predict_proba model x_data)
               <$> CVClassifier.models self)
              (CVClassifier.n_folds self) r c) as (mean & Hmean & Hsh & _).
  { intros Hnil. by apply fmap_nil_inv in Hnil. }
  { by apply Forall_fmap. }
  destruct (argmax_labels mean r c cs Hsh Hc Hlen) as (labels & Hl & Hsel).
  exists mean, labels. split; [done|]. split.
  { unfold CVClassifier.predict, CVClassifier._mean_proba.
    rewrite Hmean, Hcs. exact Hl. }
  split. { rewrite <- (Forall2_length _ _ _ Hsel). by destruct Hsh. }
  split; [done|]. by eapply argmax_labels_elem_of.
Qed.

End ensemble_predict.

Lemma predict_unfitted_raises_witness :
  CVClassifier.predict Samples.cv Samples.x_new = Raise AxisError
  ∧ NestedClusterCVClassifier.predict Samples.nested Samples.x_new
    = Raise AxisError.
Proof.
  destruct (predict_unfitted_raises (Model:=FrequencyModel.t) (Label:=Z))
    as [Hcv Hnested].
  split.
  - exact (Hcv Samples.cv Samples.x_new eq_refl).
  - exact (Hnested Samples.nested Samples.x_new eq_refl).
Defined.

Lemma predict_without_classes_raises_witness :
  CVClassifier.predict Samples.cv_fitted Samples.x_new = Raise TypeError
  ∧ NestedClusterCVClassifier.predict Samples.nested_no_classes Samples.x_new
    = Raise TypeError.
Proof.
  destruct (predict_without_classes_raises (Model:=FrequencyModel.t) (Label:=Z))
    as [Hcv Hnested].
  split.
  - apply (Hcv Samples.cv_fitted Samples.x_new 2 2).
    + discriminate.
    + repeat constructor.
    + lia.
    + lia.
    + reflexivity.
  - apply (Hnested Samples.nested_no_classes Samples.x_new 2 2).
    + discriminate.
    + repeat constructor.
    + lia.
    + lia.
    + reflexivity.
Defined.

Lemma cv_predict_selects_first_maximum_witness :
  ∃ mean labels,
    CVClassifier.predict_proba (cv_set_classes_ [0; 1]%Z Samples.cv_fitted)
      Samples.x_new = Ok (Array2 mean)
    ∧ CVClassifier.predict (cv_set_classes_ [0; 1]%Z Samples.cv_fitted)
        Samples.x_new = Ok labels
    ∧ length labels = 2
    ∧ Forall2 (λ row l, ∃ b, first_max row b ∧ [0; 1]%Z !! b = Some l)
              mean labels
    ∧ Forall (λ l, l ∈ [0; 1]%Z) labels.
Proof.
  apply (cv_predict_selects_first_maximum
           (cv_set_classes_ [0; 1]%Z Samples.cv_fitted) Samples.x_new 2 2).
  - discriminate.
  - repeat constructor.
  - reflexivity.
  - lia.
  - simpl. lia.
Defined.

(** ** Row sums of the mean probabilities *)







Section row_sums.
Context {Model Label : Type} `{!BaseModel Model Label}.



End row_sums.



(** ** The nested scheme on identifiers [0 .. n-1] *)

Lemma n_distinct_filter_ne (clusters : list Z) (c : Z) :
  c ∈ clusters →
  n_distinct (filter (λ k, k ≠ c) clusters) = n_distinct clusters - 1.
Proof.
  intros Hin. unfold n_distinct.
  assert (list_to_set (filter (λ k, k ≠ c) clusters)
          = (list_to_set clusters : gset Z) ∖ {[c]}) as ->.
  { apply set_eq. intros k.
    rewrite elem_of_difference, !elem_of_list_to_set, list_elem_of_filter,
      elem_of_singleton.
    tauto. }
  rewrite size_difference, size_singleton; [done|].
  apply singleton_subseteq_l. by apply elem_of_list_to_set.
Qed.

Section nested_zero_based.
Context {Model Label : Type} `{!BaseModel Model Label}.
Import NestedClusterCVClassifier.

(** With cluster identifiers [0 .. n-1] on aligned data, [fit] returns and
    trains the nested leave-one-cluster-out scheme: for every cluster [c]
    and every other cluster [f], one model fitted on the samples that are in
    neither; that is [n * (n - 1)] models, as the docstring says. *)
Theorem nested_fit_zero_based_scheme clf params (clusters : list Z) shuffle
    (x_data : matrix) (y_data : list Label) :
  np_unique clusters = seqZ 0 (Z.of_nat (n_distinct clusters)) →
  length clusters ≤ length x_data →
  length clusters ≤ length y_data →
  let self := __init__ clf params clusters shuffle in
  fit x_data y_data self
  = (models_extend (spec_fit_models self x_data y_data) self, Ok ())
  ∧ length (spec_fit_models self x_data y_data)
    = n_distinct clusters * (n_distinct clusters - 1).
Proof.
  intros Hids Hx Hy self. split.
  - rewrite nested_fit_appends by done.
    unfold fit_models, spec_fit_models. simpl.
    by rewrite length_np_unique, Hids.
  - rewrite length_spec_fit_models. unfold spec_model_count. simpl.
    rewrite (sum_list_fmap_same (n_distinct clusters - 1)).
    + by rewrite length_np_unique.
    + apply Forall_forall. intros c Hc.
      apply n_distinct_filter_ne. by apply elem_of_np_unique.
Qed.

End nested_zero_based.

Lemma nested_fit_zero_based_scheme_witness :
  NestedClusterCVClassifier.fit Samples.x_data Samples.y_data Samples.nested
  = (models_extend (spec_fit_models Samples.nested Samples.x_data Samples.y_data)
       Samples.nested, Ok ())
  ∧ length (spec_fit_models Samples.nested Samples.x_data Samples.y_data)
    = n_distinct Samples.clusters * (n_distinct Samples.clusters - 1).
Proof.
  apply (nested_fit_zero_based_scheme FrequencyModel.new ∅ Samples.clusters
           true Samples.x_data Samples.y_data).
  - reflexivity.
  - simpl. lia.
  - simpl. lia.
Defined.

(** ** What the wrappers hand to the model *)

Lemma df_inplace_raise x (f : DataFrame Q → result (DataFrame Q)) h df e :
  h !! x = Some df → f df = Raise e → df_inplace x f h = (h, Raise e).
Proof.
  intros Hx Hf. unfold df_inplace, deref, lift.
  unfold mbind, M_bind. rewrite Hx. simpl. by rewrite Hf.
Qed.

Lemma result_bind_Ok {A B} (f : A → result B) (a : A) : Ok a ≫= f = f a.
Proof. reflexivity. Qed.

Lemma scale_run (scaler : option StandardScaler) descriptors x h d :
  h !! x = Some d →
  ∃ h',
    match scaler with
    | Some sc =>
        deref x ≫= λ df,
        lift (df_getitem df descriptors) ≫= λ selected,
        lift (transform sc selected) ≫= λ scaled,
        df_inplace x (λ df, df_loc_setitem df descriptors scaled)
    | None => mret ()
    end h
    = (h', (λ _, ()) <$> match scaler with
                         | Some sc =>
                             df_getitem d descriptors ≫= λ selected,
                             transform sc selected ≫= λ scaled,
                             df_loc_setitem d descriptors scaled
                         | None => Ok d
                         end)
    ∧ (h' = h ∨ ∃ df', h' = <[x := df']> h).
Proof.
  intros Hx. destruct scaler as [sc|]; [|by exists h; split; [|left]].
  unfold mbind at 1, M_bind, deref. rewrite Hx. simpl or_raise.
  unfold mbind at 1, M_bind, lift.
  destruct (df_getitem d descriptors) as [selected|e];
    [|by exists h; split; [|left]].
  rewrite result_bind_Ok. unfold mbind at 1, M_bind.
  destruct (transform sc selected) as [scaled|e];
    [|by exists h; split; [|left]].
  rewrite result_bind_Ok.
  destruct (df_loc_setitem d descriptors scaled) as [df'|e] eqn:Hset.
  - exists (<[x := df']> h). split; [|right; by exists df'].
    by rewrite (df_inplace_ok x _ h d df').
  - exists h. split; [|by left].
    by rewrite (df_inplace_raise x _ h d e).
Qed.

(** [preprocess] on a reference that names [df] returns or raises as the
    preprocessing of [df] does. *)
Lemma preprocess_run redundant_cols scaler descriptors x h df :
  h !! x = Some df →
  ∃ h', preprocess redundant_cols scaler descriptors x h
        = (h', (λ _, ()) <$> preprocessed redundant_cols scaler descriptors df).
Proof.
  intros Hx. unfold preprocessed, preprocess.
  unfold mbind at 1, M_bind.
  destruct (truthy redundant_cols).
  - destruct (df_drop df (default [] redundant_cols)) as [d|e] eqn:Hd.
    + rewrite (df_inplace_ok x _ h df d Hx Hd).
      destruct (scale_run scaler descriptors x (<[x := d]> h) d)
        as (h' & Hrun & _); [apply lookup_insert_eq|].
      by exists h'.
    + rewrite (df_inplace_raise x _ h df e Hx Hd). by exists h.
  - destruct (scale_run scaler descriptors x h df Hx) as (h' & Hrun & _).
    by exists h'.
Qed.

Lemma rows_of_one_column {A} (a : string) (c1 : list A) (n : nat) :
  length c1 = n →
  (λ i, omap (λ nc : string * list A, nc.2 !! i) [(a, c1)]) <$> seq 0 n
  = (λ v, [v]) <$> c1.
Proof.
  intros H1. apply list_eq. intros i. rewrite !list_lookup_fmap.
  destruct (decide (i < n)) as [Hi|Hi].
  - rewrite lookup_seq_lt by done.
    destruct (lookup_lt_is_Some_2 c1 i) as [u Hu]; [lia|].
    simpl. by rewrite Hu.
  - rewrite lookup_seq_ge by lia.
    by rewrite (lookup_ge_None_2 c1) by lia.
Qed.

Section regressor_table.
Context {R FingerprintInfo : Type} `{!RegressorModel R}.
Import Regressor.

(** [Regressor.predict] returns a table exactly when the preprocessing of
    the input succeeds and the model, called on the cells of the
    preprocessed table, answers with one value per row; the table then has
    the single column [{name}_prediction], holding those values under the
    index of the input. *)
Theorem regressor_predict_returns (self : t R FingerprintInfo) (x : loc)
    (h : store) (df : DataFrame Q) (out : DataFrame Q) :
  h !! x = Some df →
  (∃ h', predict self x h = (h', Ok out))
  ↔ ∃ df' y,
      preprocessed (redundant_cols self) (scaler self) (descriptors self) df
      = Ok df'
      ∧ model_predict (model self) (values df') = Ok y
      ∧ length y = length (index df)
      ∧ out = {| index := index df;
                 columns := [name self +:+ "_prediction"];
                 values := (λ v, [v]) <$> y |}.
Proof.
  intros Hx. unfold predict.
  setoid_rewrite (copy_deref_run _ x h df Hx). cbv zeta.
  set (x' := fresh (dom h)). set (h1 := <[x' := df]> h).
  assert (h1 !! x' = Some df) as Hx' by apply lookup_insert_eq.
  destruct (preprocess_run (redundant_cols self) (scaler self)
              (descriptors self) x' h1 df Hx') as (h2 & Hrun).
  unfold mbind at 1, M_bind. rewrite Hrun.
  destruct (preprocessed _ _ _ df) as [df'|e] eqn:Hpre; simpl.
  2:{ split; [by intros [h' [=]]|by intros (? & ? & [=] & _)]. }
  destruct (preprocess_ok (redundant_cols self) (scaler self)
              (descriptors self) x' h1 df df' Hx' Hpre) as (h2' & Hrun' & Hx2).
  assert (h2' = h2) as -> by congruence.
  unfold mbind at 1, M_bind, deref. rewrite Hx2. simpl or_raise.
  unfold mbind at 1, M_bind, lift.
  destruct (model_predict (model self) (values df')) as [y|e] eqn:Hy.
  2:{ split; [by intros [h' [=]]|].
      intros (d & y & [= <-] & Hy' & _). congruence. }
  unfold df_from_dict. cbn [forallb snd andb].
  destruct (decide (length y = length (index df))) as [Hlen|Hlen].
  - rewrite bool_decide_eq_true_2 by done. cbn [fmap list_fmap fst].
    rewrite (rows_of_one_column _ y) by done.
    split.
    + intros [h' [= _ <-]]. by exists df', y.
    + intros (d & y' & [= <-] & Hy' & _ & ->).
      assert (y' = y) as -> by congruence. by exists h2.
  - rewrite bool_decide_eq_false_2 by done.
    split; [by intros [h' [=]]|].
    intros (d & y' & [= <-] & Hy' & Hlen' & _).
    assert (y' = y) as -> by congruence. done.
Qed.

End regressor_table.

Lemma regressor_predict_returns_witness :
  (∃ h', Regressor.predict Samples.regressor Samples.caller_table Samples.heap
         = (h', Ok {| index := [PyStr "mol_a"; PyStr "mol_b"];
                      columns := ["sol_prediction"];
                      values := [[1 + ((2 - 3) / 1 + ((300 - 200) / 100 + 0))];
                                 [1 + ((4 - 3) / 1 + ((100 - 200) / 100 + 0))]]%Q |})).
Proof.
  apply (proj2 (regressor_predict_returns Samples.regressor Samples.caller_table
                  Samples.heap Samples.features _ eq_refl)).
  eexists _, _. split; [reflexivity|]. split; [reflexivity|].
  split; reflexivity.
Defined.

(** ** What preprocessing keeps and what it changes *)

Lemma compress_bool_decide_filter {A} (P : A → Prop) `{!∀ x, Decision (P x)}
    (l : list A) :
  compress ((λ x, bool_decide (P x)) <$> l) l = filter P l.
Proof.
  induction l as [|x l IH]; [done|].
  rewrite fmap_cons. cbn [compress]. destruct (decide (P x)).
  - by rewrite bool_decide_eq_true_2, filter_cons_True, IH by done.
  - by rewrite bool_decide_eq_false_2, filter_cons_False, IH by done.
Qed.

Lemma filter_not_elem_of_nil (l : list string) :
  filter (λ x, x ∉ ([] : list string)) l = l.
Proof.
  induction l as [|x l IH]; [done|].
  rewrite filter_cons_True by apply not_elem_of_nil. by rewrite IH.
Qed.

Lemma length_set_positions {A} (ps : list nat) :
  ∀ (row vals : list A), length (set_positions row ps vals) = length row.
Proof.
  unfold set_positions.
  induction ps as [|p ps IH]; intros row [|v vals]; try done.
  simpl. by rewrite IH, length_insert.
Qed.

Lemma lookup_set_positions_ne {A} (ps : list nat) (p : nat) :
  p ∉ ps → ∀ (row vals : list A), set_positions row ps vals !! p = row !! p.
Proof.
  unfold set_positions. intros Hp.
  induction ps as [|q ps IH]; intros row [|v vals]; try done.
  apply not_elem_of_cons in Hp as [Hne Hp]. simpl.
  rewrite IH by done. by apply list_lookup_insert_ne.
Qed.

Lemma elem_of_np_where_from (mask : list bool) :
  ∀ i p, p ∈ np_where_from i mask → ∃ k, p = i + k ∧ mask !! k = Some true.
Proof.
  induction mask as [|b mask IH]; intros i p Hp; [by apply elem_of_nil in Hp|].
  assert (p ∈ np_where_from (S i) mask → ∃ k, p = i + k ∧ (b :: mask) !! k = Some true)
    as Hrest.
  { intros Hin. destruct (IH _ _ Hin) as (k & -> & Hk).
    exists (S k). split; [lia|done]. }
  destruct b; simpl in Hp; [|by apply Hrest].
  apply elem_of_cons in Hp as [->|Hp]; [|by apply Hrest].
  exists 0. split; [lia|done].
Qed.

(** A position of [col_positions] carries the label asked for. *)
Lemma elem_of_col_positions (cols : list string) (name : string) (p : nat) :
  p ∈ col_positions cols name → cols !! p = Some name.
Proof.
  intros Hp. apply elem_of_np_where_from in Hp as (k & -> & Hk).
  rewrite list_lookup_fmap in Hk. simpl.
  destruct (cols !! k) as [c|] eqn:Hc; [|done].
  simpl in Hk. injection Hk as Hk. apply bool_decide_eq_true in Hk. by subst.
Qed.

Lemma df_drop_Ok {A} (df d : DataFrame A) (labels : list string) :
  df_drop df labels = Ok d →
  index d = index df
  ∧ columns d = filter (λ c, c ∉ labels) (columns df)
  ∧ values d = compress ((λ c, bool_decide (c ∉ labels)) <$> columns df)
               <$> values df.
Proof.
  unfold df_drop. destruct (forallb _ labels); [|done].
  intros [= <-]. simpl. split; [done|]. split; [|done].
  apply (compress_bool_decide_filter (λ c, c ∉ labels)).
Qed.

Lemma df_loc_setitem_Ok {A} (df d : DataFrame A) (labels : list string)
    (arr : list (list A)) :
  df_loc_setitem df (Some labels) arr = Ok d →
  index d = index df
  ∧ columns d = columns df
  ∧ length arr = length (values df)
  ∧ values d = zip_with (λ row vals,
                           set_positions row
                             (labels ≫= col_positions (columns df)) vals)
                        (values df) arr.
Proof.
  unfold df_loc_setitem. destruct (bool_decide _) eqn:Hshape; [|done].
  apply bool_decide_eq_true in Hshape as [Hlen _].
  by intros [= <-].
Qed.

(** The preprocessed table: the index of the input, its columns without the
    redundant ones and in their order, one row per input row, every row as
    wide as the column list when the input's rows were. *)
Lemma preprocessed_columns redundant_cols scaler descriptors
    (df df' : DataFrame Q) :
  preprocessed redundant_cols scaler descriptors df = Ok df' →
  index df' = index df
  ∧ columns df' = filter (λ c, c ∉ default [] redundant_cols) (columns df)
  ∧ length (values df') = length (values df)
  ∧ (Forall (λ row, length row = length (columns df)) (values df) →
     Forall (λ row, length row = length (columns df')) (values df')).
Proof.
  unfold preprocessed. intros Hpre.
  assert (∃ dropped,
    (if truthy redundant_cols then df_drop df (default [] redundant_cols)
     else Ok df) = Ok dropped
    ∧ index dropped = index df
    ∧ columns dropped
      = filter (λ c, c ∉ default [] redundant_cols) (columns df)
    ∧ length (values dropped) = length (values df)
    ∧ (Forall (λ row, length row = length (columns df)) (values df) →
       Forall (λ row, length row = length (columns dropped)) (values dropped)))
    as (dropped & Hdrop & Hix & Hcols & Hlen & Hwide).
  { destruct (truthy redundant_cols) eqn:Htruthy.
    - destruct (df_drop df (default [] redundant_cols)) as [d|e] eqn:Hd; [|done].
      exists d. split; [done|].
      apply df_drop_Ok in Hd as (Hix & Hcols & Hvals).
      split; [done|]. split; [done|]. rewrite Hvals.
      split; [by rewrite length_fmap|].
      intros Hwide. apply Forall_fmap. eapply Forall_impl; [exact Hwide|].
      intros row Hrow. simpl in *. rewrite Hcols.
      rewrite <- (compress_bool_decide_filter
                    (λ c, c ∉ default [] redundant_cols)).
      apply length_compress_eq; rewrite length_fmap; lia.
    - exists df. split; [done|]. split; [done|].
      assert (default [] redundant_cols = []) as ->
        by (by destruct redundant_cols as [[|]|]).
      by rewrite filter_not_elem_of_nil. }
  rewrite Hdrop, result_bind_Ok in Hpre.
  destruct scaler as [sc|]; [|by injection Hpre as <-].
  destruct descriptors as [ds|]; [|done].
  destruct (df_getitem dropped (Some ds)) as [selected|e]; [|done].
  rewrite result_bind_Ok in Hpre.
  destruct (transform sc selected) as [scaled|e]; [|done].
  rewrite result_bind_Ok in Hpre.
  apply df_loc_setitem_Ok in Hpre as (Hix' & Hcols' & Hlen' & Hvals).
  split; [congruence|]. split; [congruence|]. rewrite Hvals.
  split. { rewrite length_zip_with. rewrite Hlen'. rewrite Nat.min_id. done. }
  intros Hwide0. specialize (Hwide Hwide0).
  apply Forall_lookup. intros i row Hrow.
  apply lookup_zip_with_Some in Hrow as (row0 & vals & -> & Hrow0 & _).
  rewrite length_set_positions, Hcols'.
  by apply (proj1 (Forall_lookup _ _) Hwide i row0).
Qed.

(** Scaling writes the descriptor columns only: a cell of the table after
    the drop, in a column whose label is not a descriptor, is in the
    preprocessed table what it was. *)
Theorem preprocessed_keeps_other_columns redundant_cols scaler descriptors
    (df dropped df' : DataFrame Q) (p i : nat) (c : string) (row : list Q) :
  (if truthy redundant_cols then df_drop df (default [] redundant_cols)
   else Ok df) = Ok dropped →
  preprocessed redundant_cols scaler descriptors df = Ok df' →
  columns dropped !! p = Some c →
  c ∉ default [] descriptors →
  values dropped !! i = Some row →
  ∃ row', values df' !! i = Some row' ∧ row' !! p = row !! p.
Proof.
  unfold preprocessed. intros Hdrop Hpre Hc Hnot Hrow.
  rewrite Hdrop, result_bind_Ok in Hpre.
  destruct scaler as [sc|]; [|injection Hpre as <-; by exists row].
  destruct descriptors as [ds|]; [|done].
  destruct (df_getitem dropped (Some ds)) as [selected|e]; [|done].
  rewrite result_bind_Ok in Hpre.
  destruct (transform sc selected) as [scaled|e]; [|done].
  rewrite result_bind_Ok in Hpre.
  apply df_loc_setitem_Ok in Hpre as (_ & _ & Hlen & Hvals).
  destruct (lookup_lt_is_Some_2 scaled i) as [vals Hvalsi].
  { rewrite Hlen. by eapply lookup_lt_Some. }
  exists (set_positions row (ds ≫= col_positions (columns dropped)) vals).
  split. { by rewrite Hvals, lookup_zip_with, Hrow, Hvalsi. }
  apply lookup_set_positions_ne. intros Hp.
  apply list_elem_of_bind in Hp as (name & Hp & Hname).
  apply elem_of_col_positions in Hp.
  assert (name = c) as -> by congruence. done.
Qed.

Lemma preprocessed_keeps_other_columns_witness :
  ∃ row', values Samples.features_logp_scaled !! 1 = Some row'
          ∧ row' !! 1 = [4; 100]%Q !! 1.
Proof.
  apply (preprocessed_keeps_other_columns (Some ["fp_017"])
           (Some (standard_scaler [3] [1])%Q) (Some ["logp"])
           Samples.features Samples.features_dropped
           Samples.features_logp_scaled 1 1 "weight").
  - reflexivity.
  - reflexivity.
  - reflexivity.
  - apply (proj1 (bool_decide_eq_false _)). reflexivity.
  - reflexivity.
Defined.

(** ** Errors of the wrappers *)

Lemma df_drop_present {A} (df : DataFrame A) (labels : list string) :
  Forall (λ l, l ∈ columns df) labels → ∃ d, df_drop df labels = Ok d.
Proof.
  intros Hall. unfold df_drop.
  replace (forallb (λ l, bool_decide (l ∈ columns df)) labels) with true;
    [by eexists|].
  symmetry. apply forallb_forall. intros l Hl.
  apply bool_decide_eq_true.
  apply (proj1 (Forall_forall _ _) Hall). by apply list_elem_of_In.
Qed.

Lemma df_getitem_missing {A} (df : DataFrame A) (labels : list string) d :
  d ∈ labels → d ∉ columns df →
  df_getitem df (Some labels) = Raise ColumnNotFoundError.
Proof.
  intros Hin Hnot. unfold df_getitem.
  destruct (forallb _ labels) eqn:Hall; [|done].
  rewrite forallb_forall in Hall.
  specialize (Hall d (proj1 (list_elem_of_In _ _) Hin)).
  by apply bool_decide_eq_true in Hall.
Qed.

(** With a scaler, a descriptor that is not a column of the table after the
    drop makes the preprocessing raise. *)
Lemma preprocessed_missing_descriptor redundant_cols sc (ds : list string)
    (df : DataFrame Q) d :
  Forall (λ l, l ∈ columns df) (default [] redundant_cols) →
  d ∈ ds →
  d ∉ columns df ∨ d ∈ default [] redundant_cols →
  preprocessed redundant_cols (Some sc) (Some ds) df = Raise ColumnNotFoundError.
Proof.
  intros Hpresent Hin Hgone. unfold preprocessed.
  assert (∃ dropped,
    (if truthy redundant_cols then df_drop df (default [] redundant_cols)
     else Ok df) = Ok dropped
    ∧ columns dropped
      = filter (λ c, c ∉ default [] redundant_cols) (columns df))
    as (dropped & -> & Hcols).
  { destruct (truthy redundant_cols) eqn:Htruthy.
    - destruct (df_drop_present df _ Hpresent) as [dropped Hd].
      exists dropped. split; [done|].
      apply df_drop_Ok in Hd as (_ & Hc & _). exact Hc.
    - exists df. split; [done|].
      assert (default [] redundant_cols = []) as ->
        by (by destruct redundant_cols as [[|]|]).
      by rewrite filter_not_elem_of_nil. }
  rewrite result_bind_Ok, (df_getitem_missing dropped ds d); [done..|].
  rewrite Hcols, list_elem_of_filter. tauto.
Qed.

Section wrapper_errors.
Context {R C Label FingerprintInfo : Type}
  `{!RegressorModel R} `{!ClassifierModel C Label}.

(** An error of the preprocessing is the error of [predict]. *)
Lemma regressor_preprocess_raise (self : Regressor.t R FingerprintInfo) x h df e :
  h !! x = Some df →
  preprocessed (Regressor.redundant_cols self) (Regressor.scaler self)
    (Regressor.descriptors self) df = Raise e →
  ∃ h', Regressor.predict self x h = (h', Raise e).
Proof.
  intros Hx Hpre. unfold Regressor.predict.
  rewrite (copy_deref_run _ x h df Hx). cbv zeta.
  destruct (preprocess_run (Regressor.redundant_cols self)
              (Regressor.scaler self) (Regressor.descriptors self)
              (fresh (dom h)) (<[fresh (dom h) := df]> h) df)
    as (h' & Hrun); [apply lookup_insert_eq|].
  exists h'. unfold mbind at 1, M_bind. by rewrite Hrun, Hpre.
Qed.

Lemma classifier_preprocess_raise (self : Classifier.t C FingerprintInfo) x h df e :
  h !! x = Some df →
  preprocessed (Classifier.redundant_cols self) (Classifier.scaler self)
    (Classifier.descriptors self) df = Raise e →
  ∃ h', Classifier.predict self x h = (h', Raise e).
Proof.
  intros Hx Hpre. unfold Classifier.predict.
  rewrite (copy_deref_run _ x h df Hx). cbv zeta.
  destruct (preprocess_run (Classifier.redundant_cols self)
              (Classifier.scaler self) (Classifier.descriptors self)
              (fresh (dom h)) (<[fresh (dom h) := df]> h) df)
    as (h' & Hrun); [apply lookup_insert_eq|].
  exists h'. unfold mbind at 1, M_bind. by rewrite Hrun, Hpre.
Qed.

(** A wrapper with a scaler reads the descriptor columns from its copy after
    the redundant columns are gone: when a descriptor is not a column of the
    input, or is also listed as redundant, [predict] raises
    [ColumnNotFoundError] and returns no table. *)
Theorem predict_missing_descriptor_column :
  (∀ (self : Regressor.t R FingerprintInfo) (x : loc) (h : store) df sc ds d,
     h !! x = Some df →
     Regressor.scaler self = Some sc →
     Regressor.descriptors self = Some ds →
     Forall (λ l, l ∈ columns df) (default [] (Regressor.redundant_cols self)) →
     d ∈ ds →
     d ∉ columns df ∨ d ∈ default [] (Regressor.redundant_cols self) →
     ∃ h', Regressor.predict self x h = (h', Raise ColumnNotFoundError))
  ∧ (∀ (self : Classifier.t C FingerprintInfo) (x : loc) (h : store) df sc ds d,
       h !! x = Some df →
       Classifier.scaler self = Some sc →
       Classifier.descriptors self = Some ds →
       Forall (λ l, l ∈ columns df) (default [] (Classifier.redundant_cols self)) →
       d ∈ ds →
       d ∉ columns df ∨ d ∈ default [] (Classifier.redundant_cols self) →
       ∃ h', Classifier.predict self x h = (h', Raise ColumnNotFoundError)).
Proof.
  split; intros self x h df sc ds d Hx Hsc Hds Hpresent Hin Hgone.
  - apply (regressor_preprocess_raise self x h df); [done|].
    rewrite Hsc, Hds. by apply (preprocessed_missing_descriptor _ sc ds df d).
  - apply (classifier_preprocess_raise self x h df); [done|].
    rewrite Hsc, Hds. by apply (preprocessed_missing_descriptor _ sc ds df d).
Qed.


End wrapper_errors.

Lemma predict_missing_descriptor_column_witness :
  (∃ h', Regressor.predict
           {| Regressor.model := {| SumRegressor.bias := 1 |};
              Regressor.name := "sol";
              Regressor.descriptors := Some ["logp"; "fp_017"];
              Regressor.fingerprints := @None (list unit);
              Regressor.scaler := Some (standard_scaler [3; 0] [1; 1])%Q;
              Regressor.redundant_cols := Some ["fp_017"] |}
           Samples.caller_table Samples.heap
         = (h', Raise ColumnNotFoundError)).
Proof.
  destruct (predict_missing_descriptor_column (R:=SumRegressor.t)
              (C:=CVClassifier.t FrequencyModel.t Z) (Label:=Z)
              (FingerprintInfo:=unit)) as [Hreg _].
  apply (Hreg _ Samples.caller_table Samples.heap Samples.features
           (standard_scaler [3; 0] [1; 1])%Q ["logp"; "fp_017"] "fp_017").
  - reflexivity.
  - reflexivity.
  - reflexivity.
  - repeat constructor.
  - repeat constructor.
  - right. repeat constructor.
Defined.


(** ** A classifier around an ensemble *)

Lemma Forall2_zip_with_l {A B D E} (P : A → B → Prop) (Q : A → D → Prop)
    (S : E → D → Prop) (f : B → A → E) (l : list A) (k : list B) :
  (∀ x y z, P x y → Q x z → S (f y x) z) →
  Forall2 P l k → ∀ m, Forall2 Q l m → Forall2 S (zip_with f k l) m.
Proof.
  intros Hstep Hlk. induction Hlk as [|x y l k Hxy _ IH]; intros m Hlm.
  - inversion Hlm. constructor.
  - inversion Hlm as [|? z ? m' Hxz Hlm']; subst. simpl.
    constructor; [by eapply Hstep|by apply IH].
Qed.

Section classifier_over_ensemble.
Context {Model Label FingerprintInfo : Type} `{!BaseModel Model Label}.

(** A [Classifier] around a [CVClassifier] that was never fitted: the
    ensemble answers with a 0-d scalar, which the loop over the rows cannot
    iterate, so [Classifier.predict] raises [TypeError] although
    [predict_proba] of the ensemble raised nothing. *)
Theorem classifier_over_unfitted_ensemble
    (self : Classifier.t (CVClassifier.t Model Label) FingerprintInfo)
    (x : loc) (h : store) (df df' : DataFrame Q) :
  h !! x = Some df →
  preprocessed (Classifier.redundant_cols self) (Classifier.scaler self)
    (Classifier.descriptors self) df = Ok df' →
  CVClassifier.models (Classifier.model self) = [] →
  ∃ h', Classifier.predict self x h = (h', Raise TypeError).
Proof.
  intros Hx Hpre Hnil.
  destruct (preprocess_ok (Classifier.redundant_cols self)
              (Classifier.scaler self) (Classifier.descriptors self)
              (fresh (dom h)) (<[fresh (dom h) := df]> h) df df')
    as (h' & Hrun & Hx'); [apply lookup_insert_eq|done|].
  exists h'. unfold Classifier.predict.
  rewrite (copy_deref_run _ x h df Hx). cbv zeta.
  unfold mbind at 1, M_bind. rewrite Hrun.
  unfold mbind at 1, M_bind, deref. rewrite Hx'. simpl or_raise.
  unfold mbind at 1, M_bind, lift.
  cbn [wrapped_predict_proba CVClassifier_model].
  unfold CVClassifier.predict_proba, CVClassifier._mean_proba.
  by rewrite Hnil.
Qed.

(** A [Classifier] around a fitted [CVClassifier]: the prediction column of
    its table holds, row by row, the labels that [predict] of the ensemble
    returns for the preprocessed table. *)
Theorem classifier_agrees_with_ensemble_predict
    (self : Classifier.t (CVClassifier.t Model Label) FingerprintInfo)
    (x : loc) (h : store) (df df' : DataFrame Q) (cs : list Label) (n : nat) :
  h !! x = Some df →
  length (index df) = n →
  preprocessed (Classifier.redundant_cols self) (Classifier.scaler self)
    (Classifier.descriptors self) df = Ok df' →
  CVClassifier.models (Classifier.model self) ≠ [] →
  Forall (λ model, has_shape n (length cs)
                     (model_predict_proba model (values df')))
         (CVClassifier.models (Classifier.model self)) →
  CVClassifier.classes_ (Classifier.model self) = Some cs →
  0 < length cs →
  ∃ h' out labels,
    Classifier.predict self x h = (h', Ok out)
    ∧ CVClassifier.predict (Classifier.model self) (values df') = Ok labels
    ∧ Forall2 (λ row l, ∃ rest, row = CLabel l :: rest) (values out) labels.
Proof.
  intros Hx Hn Hpre Hne Hshape Hcs Hpos.
  destruct (mean_entries
              ((λ model, model_predict_proba model (values df'))
               <$> CVClassifier.models (Classifier.model self))
              (CVClassifier.n_folds (Classifier.model self)) n (length cs))
    as (mean & Hmean & Hsh & _).
  { intros Hnil. by apply fmap_nil_inv in Hnil. }
  { by apply Forall_fmap. }
  destruct (classifier_predict_run self x h df df' mean cs n)
    as (h' & picked & Hrun & Hsel); [done..|].
  destruct (argmax_labels mean n (length cs) cs Hsh Hpos (Nat.le_refl _))
    as (labels & Hl & Hlabels).
  eexists h', _, labels. split; [exact Hrun|]. split.
  { unfold CVClassifier.predict, CVClassifier._mean_proba.
    rewrite Hmean, Hcs. exact Hl. }
  simpl. eapply Forall2_zip_with_l; [|exact Hsel|exact Hlabels].
  intros row pp l (b & Hb & Hc & _) (b' & Hb' & Hl').
  rewrite (first_max_unique row b b' Hb Hb') in Hc.
  assert (pp.1 = l) as <- by congruence. by eexists.
Qed.

End classifier_over_ensemble.

Lemma classifier_over_unfitted_ensemble_witness :
  ∃ h', Classifier.predict Samples.classifier_unfitted Samples.caller_table
          Samples.heap = (h', Raise TypeError).
Proof.
  apply (classifier_over_unfitted_ensemble Samples.classifier_unfitted
           Samples.caller_table Samples.heap Samples.features
           Samples.features_scaled).
  - reflexivity.
  - reflexivity.
  - reflexivity.
Defined.

Lemma classifier_agrees_with_ensemble_predict_witness :
  ∃ h' out labels,
    Classifier.predict Samples.classifier Samples.caller_table Samples.heap
    = (h', Ok out)
    ∧ CVClassifier.predict (cv_set_classes_ [0; 1]%Z Samples.cv_fitted)
        (values Samples.features_scaled) = Ok labels
    ∧ Forall2 (λ row l, ∃ rest, row = CLabel l :: rest) (values out) labels.
Proof.
  apply (classifier_agrees_with_ensemble_predict Samples.classifier
           Samples.caller_table Samples.heap Samples.features
           Samples.features_scaled [0; 1]%Z 2).
  - reflexivity.
  - reflexivity.
  - reflexivity.
  - discriminate.
  - repeat constructor.
  - reflexivity.
  - simpl. lia.
Defined.

(** ** The table the model is called on *)

Lemma preprocess_inv redundant_cols scaler descriptors x h h' df :
  h !! x = Some df →
  preprocess redundant_cols scaler descriptors x h = (h', Ok ()) →
  ∃ df', preprocessed redundant_cols scaler descriptors df = Ok df'
         ∧ h' !! x = Some df'.
Proof.
  intros Hx Hrun.
  destruct (preprocess_run redundant_cols scaler descriptors x h df Hx)
    as (h'' & Hrun').
  destruct (preprocessed redundant_cols scaler descriptors df)
    as [df'|e] eqn:Hpre; [|simpl in Hrun'; congruence].
  exists df'. split; [done|].
  destruct (preprocess_ok redundant_cols scaler descriptors x h df df' Hx Hpre)
    as (h3 & Hrun3 & Hx3).
  congruence.
Qed.

(** After the preprocessing statements have run on a table, the table has
    the index it had, its columns without the redundant ones and in their
    order, and one row per row it had; when its rows were as wide as its
    column list, they still are. *)
Theorem preprocess_table_columns redundant_cols scaler descriptors
    (x : loc) (h h' : store) (df : DataFrame Q) :
  h !! x = Some df →
  preprocess redundant_cols scaler descriptors x h = (h', Ok ()) →
  ∃ df',
    h' !! x = Some df'
    ∧ index df' = index df
    ∧ columns df' = filter (λ c, c ∉ default [] redundant_cols) (columns df)
    ∧ length (values df') = length (values df)
    ∧ (Forall (λ row, length row = length (columns df)) (values df) →
       Forall (λ row, length row = length (columns df')) (values df')).
Proof.
  intros Hx Hrun.
  destruct (preprocess_inv _ _ _ x h h' df Hx Hrun) as (df' & Hpre & Hx').
  exists df'. split; [done|]. by eapply preprocessed_columns.
Qed.

Lemma preprocess_table_columns_witness :
  ∃ df',
    (preprocess (Some ["fp_017"]) (Some (standard_scaler [3; 200] [1; 100])%Q)
       (Some ["logp"; "weight"]) Samples.caller_table Samples.heap).1
      !! Samples.caller_table = Some df'
    ∧ index df' = [PyStr "mol_a"; PyStr "mol_b"]
    ∧ columns df'
      = filter (λ c, c ∉ ["fp_017"]) ["logp"; "fp_017"; "weight"]
    ∧ length (values df') = 2
    ∧ (Forall (λ row, length row = 3) (values Samples.features) →
       Forall (λ row, length row = length (columns df')) (values df')).
Proof.
  apply (preprocess_table_columns (Some ["fp_017"])
           (Some (standard_scaler [3; 200] [1; 100])%Q)
           (Some ["logp"; "weight"]) Samples.caller_table Samples.heap _
           Samples.features).
  - reflexivity.
  - reflexivity.
Defined.
